(** * A shallow embedding of the HTTP request pipeline of augmented-rpc

    The embedded program is the HTTP part of the proxy (src/unnamed/part_000,
    which extends src/app.js with an optional sqlite backing): the cache key,
    the in-memory / durable cache, the duplicate detector, the cache policy
    of the POST handler and the retrying upstream caller.

    Modelling conventions.
    - Timestamps ([Date.now()]) are milliseconds, as [Z]; every operation
      that reads the clock takes the current time as an argument.
    - JSON numbers are modelled by integers ([Z]); the proxy only moves them.
      A [JNumber n] stands for the JavaScript number [n], so the model
      covers the integers [bodyParser] reads exactly,
      [|n| <= 2^53], which [JSON.stringify] prints in plain decimal;
      larger or fractional numbers are outside the model.
    - A JavaScript value that may be [undefined] is an [option]: [None] is
      [undefined].
    - Exceptions of the JavaScript code are the [Throw] branch of the small
      error monad [js_result]. *)

From Stdlib Require Import QArith Qround.
From stdpp Require Import base gmap strings list.
From Stdlib Require Import Ascii String ZArith Lia.

Set Warnings "-register-all".
Open Scope Z_scope.

(* ================================================================== *)
(** ** JavaScript values and errors *)

(** JSON values as produced by [bodyParser.json()] and [JSON.parse].
    [JObject] lists the members as written in the text; the JavaScript
    object built from them is [Stringify.parsed_fields] (a repeated key
    keeps its first position and its last value) and enumerates its keys
    in the order [Stringify.own_keys_order]: array indices first, in
    ascending numeric order, then the other keys in insertion order. *)
Inductive json : Type :=
  | JNull
  | JBool (b : bool)
  | JNumber (n : Z)
  | JString (s : string)
  | JArray (xs : list json)
  | JObject (fields : list (string * json)).

(** [err.response] of an axios failure (the upstream answered with an
    HTTP error status): an object with [status], [data], [headers],
    [config] and [request]. Its [request] is the Node [ClientRequest],
    whose [socket] refers back to it, so the object is circular and
    [JSON.stringify] of it throws. *)
Record axios_http_response := mkHttpResponse {
  resp_status : Z;
  resp_data : json
}.

(** [err.request] of an axios failure: the Node [ClientRequest]; only its
    [data] property is read ([undefined] for a [ClientRequest]). *)
Record client_request := mkClientRequest {
  rq_data : option json
}.

(** The failure raised by [axios.post]: [err.response] and [err.request]
    ([None] when the property is absent). Both are objects when present,
    so [if (err.response)] and [if (err.request)] test presence. *)
Record axios_error := mkAxiosError {
  ax_response : option axios_http_response;
  ax_request : option client_request
}.

(** Values that can be thrown. *)
Inductive js_error : Type :=
  | TypeError (msg : string)
  | ReferenceError (msg : string)
  | ErrorObject (msg : string)            (* [Error(msg)] *)
  | AxiosFailure (e : axios_error)
  | DbFailure (msg : string)
  | NodeError (code : string) (msg : string).  (* an [Error] of Node with its [code] *)

Inductive js_result (A : Type) : Type :=
  | Ok (a : A)
  | Throw (e : js_error).
Arguments Ok {A} a.
Arguments Throw {A} e.

Definition js_bind {A B} (m : js_result A) (k : A -> js_result B) : js_result B :=
  match m with
  | Ok a => k a
  | Throw e => Throw e
  end.

(** [try { m } catch (err) { h(err) }] *)
Definition js_try {A} (m : js_result A) (h : js_error -> js_result A) : js_result A :=
  match m with
  | Ok a => Ok a
  | Throw e => h e
  end.

Notation "'let*' x := m 'in' k" := (js_bind m (fun x => k))
  (at level 200, x name, m at level 100, right associativity).

(* ================================================================== *)
(** ** [JSON.stringify] *)

Module Stringify.

Definition digit (n : Z) : Ascii.ascii := Ascii.ascii_of_nat (48 + Z.to_nat n).

(** Decimal digits of a non-negative integer, [fuel] bounding the
    recursion (one step per digit). *)
Fixpoint digits_aux (fuel : nat) (n : Z) (acc : string) : string :=
  match fuel with
  | O => acc
  | S f =>
      let acc' := String (digit (n mod 10)) acc in
      if n <? 10 then acc' else digits_aux f (n / 10) acc'
  end.

Definition number_to_string (n : Z) : string :=
  if n <? 0
  then String "-"%char (digits_aux (Z.to_nat (Z.log2_up (- n) + 1)) (- n) EmptyString)
  else digits_aux (Z.to_nat (Z.log2_up n + 1)) n EmptyString.

Definition hex_digit (n : nat) : Ascii.ascii :=
  if (n <? 10)%nat then Ascii.ascii_of_nat (48 + n) else Ascii.ascii_of_nat (87 + n).

Definition chr (n : nat) : Ascii.ascii := Ascii.ascii_of_nat n.

(** A backslash followed by one character. *)
Definition backslashed (c : Ascii.ascii) : string := String (chr 92) (String c EmptyString).

(** The escaping of [JSON.stringify] for one character: the double quote
    (34) and the backslash (92) are backslashed, the control characters
    below 32 get their short escape or [\u00XX]. *)
Definition escape_char (c : Ascii.ascii) : string :=
  let n := Ascii.nat_of_ascii c in
  if (n =? 34)%nat then backslashed (chr 34)
  else if (n =? 92)%nat then backslashed (chr 92)
  else if (n =? 8)%nat then backslashed "b"%char
  else if (n =? 12)%nat then backslashed "f"%char
  else if (n =? 10)%nat then backslashed "n"%char
  else if (n =? 13)%nat then backslashed "r"%char
  else if (n =? 9)%nat then backslashed "t"%char
  else if (n <? 32)%nat
  then String (chr 92) (String "u"%char (String "0"%char (String "0"%char
         (String (hex_digit (n / 16)) (String (hex_digit (n mod 16)) EmptyString)))))
  else String c EmptyString.

Fixpoint escape (s : string) : string :=
  match s with
  | EmptyString => EmptyString
  | String c s' => String.append (escape_char c) (escape s')
  end.

Definition quote (s : string) : string :=
  String (chr 34) (String.append (escape s) (String (chr 34) EmptyString)).

Fixpoint join (sep : string) (xs : list string) : string :=
  match xs with
  | [] => EmptyString
  | [x] => x
  | x :: xs' => String.append x (String.append sep (join sep xs'))
  end.

(** [Some n] when [k] is an array index: the canonical decimal form of an
    integer [n] with [0 <= n < 2^32 - 1]. *)
Fixpoint digits_value (s : string) (acc : Z) : option Z :=
  match s with
  | EmptyString => Some acc
  | String c s' =>
      let n := Z.of_nat (Ascii.nat_of_ascii c) in
      if (48 <=? n) && (n <=? 57) then digits_value s' (acc * 10 + (n - 48)) else None
  end.

Definition array_index (k : string) : option Z :=
  match k with
  | EmptyString => None
  | String c s' =>
      if Ascii.eqb c "0"%char
      then match s' with EmptyString => Some 0 | _ => None end
      else match digits_value k 0 with
           | Some n => if n <? 4294967295 then Some n else None
           | None => None
           end
  end.

Section Fields.
Context {A : Type}.

(** [CreateDataProperty] of [JSON.parse]: a new key is appended, an
    existing one gets the new value in place. *)
Fixpoint set_field (fs : list (string * A)) (k : string) (v : A) : list (string * A) :=
  match fs with
  | [] => [(k, v)]
  | (k', v') :: fs' => if String.eqb k' k then (k, v) :: fs' else (k', v') :: set_field fs' k v
  end.

(** The own properties of the object parsed from the members [fs], in
    insertion order. *)
Definition parsed_fields (fs : list (string * A)) : list (string * A) :=
  fold_left (fun acc kv => set_field acc kv.1 kv.2) fs [].

Fixpoint insert_by_index (n : Z) (kv : string * A) (l : list (Z * (string * A)))
    : list (Z * (string * A)) :=
  match l with
  | [] => [(n, kv)]
  | (m, kv') :: l' => if n <? m then (n, kv) :: l else (m, kv') :: insert_by_index n kv l'
  end.

Fixpoint index_fields (fs : list (string * A)) : list (Z * (string * A)) :=
  match fs with
  | [] => []
  | kv :: fs' =>
      match array_index kv.1 with
      | Some n => insert_by_index n kv (index_fields fs')
      | None => index_fields fs'
      end
  end.

(** [OrdinaryOwnPropertyKeys]: array indices in ascending numeric order,
    then the other keys in insertion order. *)
Definition own_keys_order (fs : list (string * A)) : list (string * A) :=
  let ps := parsed_fields fs in
  map snd (index_fields ps)
  ++ List.filter (fun kv => match array_index kv.1 with Some _ => false | None => true end) ps.

End Fields.

Fixpoint stringify (j : json) : string :=
  match j with
  | JNull => "null"
  | JBool true => "true"
  | JBool false => "false"
  | JNumber n => number_to_string n
  | JString s => quote s
  | JArray xs =>
      String.append "[" (String.append (join "," (map stringify xs)) "]")
  | JObject fs =>
      String.append "{"
        (String.append
           (join "," (map (fun kv => String.append (quote kv.1) (String.append ":" kv.2))
                        (own_keys_order (map (fun kv => (kv.1, stringify kv.2)) fs))))
           "}")
  end.

End Stringify.

(** A request body [{jsonrpc, method, params, id}]; [params] may be
    omitted. *)
Record rpc_request := mkRequest {
  method : string;
  params : option json;
  req_id : json
}.

(** [`${req.body.method}${JSON.stringify(req.body.params)}`]: a template
    literal prints [undefined] as the text "undefined". *)
Definition getCacheKey (req : rpc_request) : string :=
  String.append (method req)
    (match params req with
     | Some p => Stringify.stringify p
     | None => "undefined"
     end).

(* ================================================================== *)
(** ** The cache store: [cache] (a [Map]) and the optional sqlite [db] *)

(** A value of [cache]: [{ ts, val, readCnt, writeCnt }]. [val] is the
    cached [result] field, which may be [undefined]. *)
Record entry := mkEntry {
  ts : Z;
  val : option json;
  readCnt : Z;
  writeCnt : Z
}.

(** A row of the sqlite table [data(key TEXT PRIMARY KEY, val TEXT, ts INTEGER)];
    [JSON.stringify(undefined)] is stored as SQL NULL ([None]). *)
Record db_row := mkRow {
  row_val : option string;
  row_ts : Z
}.

(** The module-level [cache] map and the [db] handle: [db] is [None]
    when [DB_FILE] is not set, otherwise the content of its table. *)
Record store := mkStore {
  cache : gmap string entry;
  db : option (gmap string db_row)
}.

(** [maxAgeMs], a number that "can be [Infinity]". *)
Inductive max_age : Type :=
  | Finite (ms : Z)
  | Infinity.

(** [Date.now() - ts <= maxAgeMs] *)
Definition fresh (now ts : Z) (maxAgeMs : max_age) : bool :=
  match maxAgeMs with
  | Finite ms => now - ts <=? ms
  | Infinity => true
  end.

(** The envelope built on a cache hit: [{ jsonrpc: "2.0", id: reqId, result: val }]. *)
Record response := mkResponse {
  rs_jsonrpc : string;
  rs_id : json;
  rs_result : json
}.

(** [cache.get(key).ts]: reading a property of [undefined] throws. *)
Definition read_ts (e : option entry) : js_result Z :=
  match e with
  | Some e => Ok (ts e)
  | None => Throw (TypeError "Cannot read properties of undefined (reading 'ts')")
  end.

(** [getFromDb(key)]: the row for [key], [undefined] if there is none. *)
Definition getFromDb (d : gmap string db_row) (key : string) : js_result (option db_row) :=
  Ok (d !! key).

(** [val !== undefined && val !== null] *)
Definition is_present (v : option json) : bool :=
  match v with
  | Some JNull | None => false
  | Some _ => true
  end.

Section CacheOps.

(** [JSON.parse] of a stored [val] column; it is only reached on the
    durable path, which the theorems below show to be unreachable. *)
Variable JSON_parse : option string -> js_result (option json).

(** [getResponseFromCache(key, maxAgeMs, reqId)] at time [now]: the response
    ([None] for [undefined]) and the store afterwards. *)
Definition getResponseFromCache (st : store) (key : string) (maxAgeMs : max_age)
    (reqId : json) (now : Z) : option response * store :=
  let '(v, st') :=
    match cache st !! key with
    | Some e =>                                            (* try from cache *)
        if fresh now (ts e) maxAgeMs
        then (val e,
              mkStore (<[key := mkEntry (ts e) (val e) (readCnt e + 1) (writeCnt e)]> (cache st))
                      (db st))
        else (None, st)
    | None =>
        match db st with
        | Some d =>                                        (* try from DB *)
            let r :=
              js_try
                (let* row := getFromDb d key in
                 match row with
                 | Some row =>
                     let* t := read_ts (cache st !! key) in
                     if fresh now t maxAgeMs then JSON_parse (row_val row) else Ok None
                 | None => Ok None
                 end)
                (fun _ => Ok None) in                      (* console.error, val stays undefined *)
            (match r with Ok v => v | Throw _ => None end, st)
        | None => (None, st)
        end
    end in
  if is_present v
  then (match v with Some j => Some (mkResponse "2.0" reqId j) | None => None end, st')
  else (None, st').

End CacheOps.

(** [writeResponseToCache(key, val)] at time [now]. The sqlite insert is
    issued without waiting; it is modelled as taking effect at once. *)
Definition writeResponseToCache (st : store) (key : string) (v : option json) (now : Z) : store :=
  let newValue :=
    mkEntry now v
      (match cache st !! key with Some e => readCnt e | None => 0 end)
      (match cache st !! key with Some e => writeCnt e + 1 | None => 1 end) in
  match db st with
  | Some d =>
      mkStore (cache st)
        (Some (<[key := mkRow (option_map Stringify.stringify v) now]> d))
  | None => mkStore (<[key := newValue]> (cache st)) None
  end.



(* ================================================================== *)
(** ** The POST handler of [handleHttpConnection] *)

Definition DUPLICATE_DELAY_TRIGGER_THRESHOLD_MS : Z := 1000.
Definition DUPLICATE_MIN_DELAY_MS : Z := 500.
Definition DUPLICATE_RANDOM_MAX_EXTRA_DELAY_MS : Z := 1000.

(** [xs.includes(m)] on a list of strings. *)
Definition includes (xs : list string) (m : string) : bool :=
  existsb (String.eqb m) xs.

(** Reading a property of a JSON value: [undefined] when absent, a
    [TypeError] on [null]. *)
Definition get_prop (j : json) (k : string) : js_result (option json) :=
  match j with
  | JObject fs =>
      Ok (option_map snd (List.find (fun kv => String.eqb kv.1 k) (Stringify.parsed_fields fs)))
  | JNull => Throw (TypeError (String.append "Cannot read properties of null (reading '"
                                 (String.append k "')")))
  | _ => Ok None
  end.

(** [typeof param === 'object' && 'blockHash' in param]; [typeof null] is
    ['object'] and the [in] operator throws on [null]. *)
Definition has_block_hash (param : json) : js_result bool :=
  match param with
  | JObject fs => Ok (existsb (fun kv => String.eqb kv.1 "blockHash") fs)
  | JArray _ => Ok false
  | JNull => Throw (TypeError "Cannot use 'in' operator to search for 'blockHash' in null")
  | _ => Ok false
  end.

(** [Array.prototype.some], stopping at the first [true]. *)
Fixpoint js_some (f : json -> js_result bool) (xs : list json) : js_result bool :=
  match xs with
  | [] => Ok false
  | x :: xs' => let* b := f x in if b then Ok true else js_some f xs'
  end.

(** The condition of lines 206-209 for writing the result to the cache. *)
Definition shouldWriteToCache (req : rpc_request) : js_result bool :=
  if includes ["eth_chainId"; "eth_blockNumber"; "net_version"] (method req) then Ok true
  else if String.eqb (method req) "eth_call" then
    match params req with
    | Some (JArray ps) => js_some has_block_hash ps
    | Some JNull => Throw (TypeError "Cannot read properties of null (reading 'some')")
    | Some _ => Throw (TypeError "req.body.params.some is not a function")
    | None => Throw (TypeError "Cannot read properties of undefined (reading 'some')")
    end
  else Ok false.

(** The Promise returned by [axios.post]: [rpcRes.data] is the body. *)
Record axios_response := mkAxiosResponse { data : json }.

(** What the handler does through [res], in order; [Rejected e] ends the
    list when the route handler itself throws [e], so that its promise
    rejects and the rest of its body is skipped. *)
Inductive reply : Type :=
  | SendCached (r : response)        (* res.send(cachedResponse) *)
  | SendUpstream (body : json)       (* res.send(rpcRes.data) *)
  | Send500 (e : js_error)           (* res.status(500).send(err) *)
  | Rejected (e : js_error).

(** Express's [res.send] sets the [Content-Type] header; once a response has
    been sent, Node's [setHeader] throws this error. *)
Definition headers_sent_error : js_error :=
  NodeError "ERR_HTTP_HEADERS_SENT" "Cannot set headers after they are sent to the client".

(** The module-level mutable state the handler uses. *)
Record state := mkState {
  st_store : store;
  duplicateDetector : gmap string Z;
  httpReqCnt : Z;
  httpUpstreamResCnt : Z;
  httpCacheResCnt : Z
}.

Definition set_store (st : state) (s : store) : state :=
  mkState s (duplicateDetector st) (httpReqCnt st) (httpUpstreamResCnt st) (httpCacheResCnt st).

(** Lines 177-185: the delay chosen for a request arriving at [now];
    [random] is the value of [Math.random()], in [[0, 1)]. *)
Definition duplicate_delay (dd : gmap string Z) (cacheKey : string) (now : Z) (random : Q)
    : option Z :=
  match dd !! cacheKey with
  | Some prevCallTs =>
      if now - prevCallTs <? DUPLICATE_DELAY_TRIGGER_THRESHOLD_MS
      then Some (DUPLICATE_MIN_DELAY_MS
                 + Qfloor (random * inject_Z DUPLICATE_RANDOM_MAX_EXTRA_DELAY_MS))
      else None
  | None => None
  end.

Inductive lookup_result : Type :=
  | Hit (r : response)
  | Miss.

(** What the handler is doing when it reaches an [await]. *)
Inductive suspension : Type :=
  | Sleeping (delayMs : Z)           (* await new Promise(... setTimeout(resolve, delayMs)) *)
  | Looked (r : lookup_result).      (* past the cache lookup *)

Section Handler.

Variable JSON_parse : option string -> js_result (option json).
(** [CACHE_MAX_AGE], in seconds. *)
Variable CACHE_MAX_AGE : Z.

(** Line 189. *)
Definition cacheMaxAgeMs (m : string) : max_age :=
  if includes ["eth_chainId"; "net_version"; "eth_getTransactionReceipt"] m
  then Infinity else Finite (CACHE_MAX_AGE * 1000).

(** Lines 186-194, run at time [now]: record the request in the
    duplicate detector, then look it up in the cache. *)
Definition handler_lookup (st : state) (req : rpc_request) (now : Z) : state * lookup_result :=
  let cacheKey := getCacheKey req in
  let dd := <[cacheKey := now]> (duplicateDetector st) in
  let '(cachedResponse, s') :=
    getResponseFromCache JSON_parse (st_store st) cacheKey (cacheMaxAgeMs (method req))
      (req_id req) now in
  match cachedResponse with
  | Some r =>
      (mkState s' dd (httpReqCnt st + 1) (httpUpstreamResCnt st) (httpCacheResCnt st + 1), Hit r)
  | None =>
      (mkState s' dd (httpReqCnt st) (httpUpstreamResCnt st) (httpCacheResCnt st), Miss)
  end.

(** The handler from its start, at time [now], up to its first [await]. *)
Definition handler_start (st : state) (req : rpc_request) (now : Z) (random : Q)
    : state * suspension :=
  match duplicate_delay (duplicateDetector st) (getCacheKey req) now random with
  | Some delayMs => (st, Sleeping delayMs)
  | None => let '(st', r) := handler_lookup st req now in (st', Looked r)
  end.

(** Lines 197-217, once [upstreamHttpRequest] has settled at time [now].
    When the cache-write step throws after [res.send(rpcRes.data)], the
    catch block's [res.status(500).send(err)] throws [headers_sent_error]:
    nothing more is sent and line 217 is not reached. *)
Definition handler_upstream_done (st : state) (req : rpc_request) (now : Z)
    (up : js_result axios_response) : state * list reply :=
  match up with
  | Ok rpcRes =>
      let written :=
        let* w := shouldWriteToCache req in
        if w then
          let* result := get_prop (data rpcRes) "result" in
          Ok (writeResponseToCache (st_store st) (getCacheKey req) result now)
        else Ok (st_store st) in
      match written with
      | Ok s' =>
          (mkState s' (duplicateDetector st) (httpReqCnt st + 1) (httpUpstreamResCnt st + 1)
             (httpCacheResCnt st), [SendUpstream (data rpcRes)])
      | Throw _ =>
          (mkState (st_store st) (duplicateDetector st) (httpReqCnt st)
             (httpUpstreamResCnt st + 1) (httpCacheResCnt st),
           [SendUpstream (data rpcRes); Rejected headers_sent_error])
      end
  | Throw err =>
      (mkState (st_store st) (duplicateDetector st) (httpReqCnt st + 1)
         (httpUpstreamResCnt st) (httpCacheResCnt st), [Send500 err])
  end.

(** One request handled with nothing interleaved: it arrives at [now],
    sleeps for its duplicate delay if it gets one, and on a miss the
    upstream call settles [latency] ms after the lookup with [up]. *)
Definition handle_request (st : state) (req : rpc_request) (now : Z) (random : Q)
    (latency : Z) (up : js_result axios_response) : state * list reply :=
  let '(st1, s) := handler_start st req now random in
  let '(st2, r, t) :=
    match s with
    | Sleeping d => let '(st2, r) := handler_lookup st1 req (now + d) in (st2, r, now + d)
    | Looked r => (st1, r, now)
    end in
  match r with
  | Hit resp => (st2, [SendCached resp])
  | Miss => handler_upstream_done st2 req (t + latency) up
  end.

End Handler.

(* ================================================================== *)
(** ** [upstreamHttpRequest]: retry with exponential backoff *)

Module Upstream.

(** The JavaScript values the catch block can read by name. *)
Inductive js_value : Type :=
  | VString (s : string)
  | VUndefined
  | VOther.

(** Evaluating an identifier: a [ReferenceError] when no enclosing scope
    declares it. *)
Definition lookup_var (scope : list (string * js_value)) (x : string) : js_result js_value :=
  match List.find (fun b => String.eqb b.1 x) scope with
  | Some b => Ok b.2
  | None => Throw (ReferenceError (String.append x " is not defined"))
  end.

(** [Error(v)]: the message is [String(v)], empty for [undefined]. *)
Definition make_error (v : js_value) : js_error :=
  match v with
  | VString s => ErrorObject s
  | VUndefined => ErrorObject ""
  | VOther => ErrorObject "[object Object]"
  end.

(** [JSON.stringify(x)] of a value that may be [undefined]. *)
Definition stringify_opt (x : option json) : js_value :=
  match x with
  | Some j => VString (Stringify.stringify j)
  | None => VUndefined
  end.

(** [JSON.stringify(err.response)]: the response object is circular (see
    [axios_http_response]). The message is abbreviated: Node goes on to
    name the objects of the cycle. *)
Definition circular_json_error : js_error := TypeError "Converting circular structure to JSON".

Definition stringify_response (r : axios_http_response) : js_result js_value :=
  Throw circular_json_error.

(** Lines 231-240: [forwardedErr] computed from the caught [err]; line 233
    stringifies [err.response] first, in the message it logs. *)
Definition forwardedErr (err : js_error) : js_result js_value :=
  match err with
  | AxiosFailure e =>
      match ax_response e, ax_request e with
      | Some r, _ =>
          let* _ := stringify_response r in            (* line 233, console.error *)
          stringify_response r                         (* line 234 *)
      | None, Some rq => Ok (stringify_opt (rq_data rq))
      | None, None => Ok (VString "unspecified")
      end
  | _ => Ok (VString "unspecified")
  end.

(** The bindings visible in the catch block: the module-level declarations
    of the file, the parameters, [err] and [forwardedErr]. *)
Definition catch_scope (fwd : js_value) (nrRetries : nat) (initialTimeoutMs : Z)
    : list (string * js_value) :=
  [("forwardedErr", fwd); ("err", VOther);
   ("initialTimeoutMs", VString (Stringify.number_to_string initialTimeoutMs));
   ("nrRetries", VString (Stringify.number_to_string (Z.of_nat nrRetries)));
   ("reqBody", VOther); ("rpc", VOther);
   ("express", VOther); ("bodyParser", VOther); ("axios", VOther); ("sqlite3", VOther);
   ("db", VOther); ("port", VOther); ("app", VOther); ("client", VOther);
   ("server", VOther); ("socket", VOther); ("cache", VOther);
   ("printStats", VOther); ("printStatsAndExit", VOther); ("getCacheKey", VOther);
   ("getFromDb", VOther); ("getResponseFromCache", VOther);
   ("writeResponseToCache", VOther); ("httpReqCnt", VOther);
   ("httpUpstreamResCnt", VOther); ("httpCacheResCnt", VOther);
   ("duplicateDetector", VOther); ("DUPLICATE_DELAY_TRIGGER_THRESHOLD_MS", VOther);
   ("DUPLICATE_MIN_DELAY_MS", VOther); ("DUPLICATE_RANDOM_MAX_EXTRA_DELAY_MS", VOther);
   ("CACHE_MAX_AGE", VOther); ("handleHttpConnection", VOther);
   ("upstreamHttpRequest", VOther); ("handleWsConnection", VOther);
   ("Error", VOther); ("JSON", VOther); ("console", VOther); ("Promise", VOther);
   ("setTimeout", VOther); ("process", VOther)].

(** Observable steps of a call: a [POST] to the upstream and an awaited
    [setTimeout]. *)
Inductive event : Type :=
  | EPost
  | ESleep (ms : Z).

(** [upstreamHttpRequest(rpc, reqBody, nrRetries, initialTimeoutMs)]. The
    upstream is the oracle [post]: [post n] is the outcome of the [n]-th
    [axios.post] (counted from 0); [calls] is how many were made before.
    Returns the events in order and the outcome. An exception thrown in
    the catch block, before the retry test, ends the call with it. *)
Fixpoint upstreamHttpRequest (post : nat -> js_result axios_response) (calls : nat)
    (nrRetries : nat) (initialTimeoutMs : Z) : list event * js_result axios_response :=
  match post calls with
  | Ok r => ([EPost], Ok r)
  | Throw err =>
      match forwardedErr err with
      | Throw e => ([EPost], Throw e)
      | Ok fwd =>
          match nrRetries with
          | S n =>
              let '(tr, res) := upstreamHttpRequest post (S calls) n (initialTimeoutMs * 2) in
              (EPost :: ESleep initialTimeoutMs :: tr, res)
          | O =>
              ([EPost],
               let* v := lookup_var (catch_scope fwd nrRetries initialTimeoutMs) "forwardErr" in
               Throw (make_error v))
          end
      end
  end.

(** The call the handler makes: [upstreamHttpRequest(rpc, req.body)] with
    the defaults [nrRetries = 10], [initialTimeoutMs = 2000]. *)
Definition upstream_call (post : nat -> js_result axios_response) :=
  upstreamHttpRequest post 0 10 2000.

Definition nr_posts (tr : list event) : nat :=
  List.length (List.filter (fun e => match e with EPost => true | _ => false end) tr).

Definition sleeps (tr : list event) : list Z :=
  List.flat_map (fun e => match e with ESleep ms => [ms] | EPost => [] end) tr.

End Upstream.

(* ================================================================== *)
(** ** Sequences of cache operations *)

Inductive cache_op : Type :=
  | OpGet (key : string) (maxAgeMs : max_age) (reqId : json) (now : Z)
  | OpWrite (key : string) (v : option json) (now : Z).

Definition exec_op (JSON_parse : option string -> js_result (option json))
    (st : store) (op : cache_op) : option response * store :=
  match op with
  | OpGet key ma reqId now => getResponseFromCache JSON_parse st key ma reqId now
  | OpWrite key v now => (None, writeResponseToCache st key v now)
  end.

(** The responses of a sequence of operations and the final store. *)
Fixpoint run_ops (JSON_parse : option string -> js_result (option json))
    (st : store) (ops : list cache_op) : list (option response) * store :=
  match ops with
  | [] => ([], st)
  | op :: ops' =>
      let '(r, st1) := exec_op JSON_parse st op in
      let '(rs, st2) := run_ops JSON_parse st1 ops' in
      (r :: rs, st2)
  end.

(** The clock reading of an operation. *)
Definition op_time (op : cache_op) : Z :=
  match op with
  | OpGet _ _ _ now => now
  | OpWrite _ _ now => now
  end.

(** ** Equality of JSON values up to the order of object keys *)




(** The events of a call whose every attempt fails. *)
Fixpoint backoff_trace (nrRetries : nat) (timeoutMs : Z) : list Upstream.event :=
  match nrRetries with
  | O => [Upstream.EPost]
  | S n => Upstream.EPost :: Upstream.ESleep timeoutMs :: backoff_trace n (timeoutMs * 2)
  end.

(* ================================================================== *)
(** ** The earlier version, src/app.js: in-memory cache only *)

Module AppJs.

(** The envelope built on a hit; app.js puts the stored value in it as it
    is, so [result] may be [undefined]. *)
Record response := mkResponse {
  rs_jsonrpc : string;
  rs_id : json;
  rs_result : option json
}.

(** src/app.js lines 79-94: [getResponseFromCache(key, maxAgeMs, reqId)]
    at time [now], with the response ([None] for [undefined]) and the map
    afterwards. *)
Definition getResponseFromCache (cache : gmap string entry) (key : string) (maxAgeMs : max_age)
    (reqId : json) (now : Z) : option response * gmap string entry :=
  match cache !! key with
  | Some e =>
      if fresh now (ts e) maxAgeMs
      then (Some (mkResponse "2.0" reqId (val e)),
            <[key := mkEntry (ts e) (val e) (readCnt e + 1) (writeCnt e)]> cache)
      else (None, cache)
  | None => (None, cache)
  end.

(** src/app.js lines 96-105. *)
Definition writeResponseToCache (cache : gmap string entry) (key : string) (v : option json)
    (now : Z) : gmap string entry :=
  <[key := mkEntry now v
             (match cache !! key with Some e => readCnt e | None => 0 end)
             (match cache !! key with Some e => writeCnt e + 1 | None => 1 end)]> cache.

(** src/app.js line 148. *)
Definition cacheMaxAgeMs (CACHE_MAX_AGE : Z) (m : string) : max_age :=
  if includes ["eth_chainId"; "net_version"] m then Infinity else Finite (CACHE_MAX_AGE * 1000).

(** src/app.js line 165. *)
Definition shouldWriteToCache (m : string) : bool :=
  includes ["eth_chainId"; "eth_blockNumber"; "net_version"; "eth_getTransactionReceipt"] m.

End AppJs.

(* ================================================================== *)
(** ** [handleWsConnection]: the websocket relay *)

Module WsRelay.

(** The relay after the upstream socket [client] is open. [connCnt] is the
    counter of line 263; [listeners] are the connection ids whose
    [client.on("message")] listener has been registered, in registration
    order (listeners are never removed); [upstream_sent] are the messages
    passed to [client.send], [delivered] the [(connId, msg)] pairs passed to
    [conn.send], both in order. *)
Record relay := mkRelay {
  connCnt : nat;
  listeners : list nat;
  upstream_sent : list string;
  delivered : list (nat * string)
}.

Definition initial : relay := mkRelay 0 [] [] [].

(** Events: a client connects; the client of connection [connId] sends
    [data]; the upstream sends [msg]. Payloads are the [toString()] of the
    frames. *)
Inductive ws_event : Type :=
  | Connection
  | ClientMessage (connId : nat) (data : string)
  | UpstreamMessage (msg : string).

Definition step (r : relay) (ev : ws_event) : relay :=
  match ev with
  | Connection =>                                   (* lines 265-281 *)
      mkRelay (S (connCnt r)) (listeners r ++ [connCnt r]) (upstream_sent r) (delivered r)
  | ClientMessage c data =>                         (* lines 268-275 *)
      if (c <? connCnt r)%nat
      then mkRelay (connCnt r) (listeners r) (upstream_sent r ++ [data]) (delivered r)
      else r                                        (* no such connection *)
  | UpstreamMessage msg =>                          (* lines 277-280, once per listener *)
      mkRelay (connCnt r) (listeners r) (upstream_sent r)
        (delivered r ++ map (fun c => (c, msg)) (listeners r))
  end.

Fixpoint run (r : relay) (evs : list ws_event) : relay :=
  match evs with
  | [] => r
  | ev :: evs' => run (step r ev) evs'
  end.

End WsRelay.

(* ================================================================== *)
(** ** Sequences of requests and other views of the handler *)

(** The test of the cache-write step of lines 205-211, without its
    effect: whether the result is written, or the exception it throws. *)
Definition write_step (req : rpc_request) (rpcRes : axios_response) : js_result bool :=
  let* w := shouldWriteToCache req in
  if w then let* _ := get_prop (data rpcRes) "result" in Ok true else Ok false.

(** The fields of an entry that only a write sets. *)
Definition entry_core (e : entry) : Z * option json * Z := (ts e, val e, writeCnt e).

(** A request as [handle_request] takes it: the body, its arrival time,
    the value of [Math.random()], the upstream latency and outcome. *)
Record request_run := mkRun {
  rr_req : rpc_request;
  rr_now : Z;
  rr_random : Q;
  rr_latency : Z;
  rr_up : js_result axios_response
}.

(** Requests handled one after another, none arriving while another is in
    flight: the final state and the replies of each request. *)
Fixpoint run_requests (JSON_parse : option string -> js_result (option json))
    (CACHE_MAX_AGE : Z) (st : state) (runs : list request_run) : state * list (list reply) :=
  match runs with
  | [] => (st, [])
  | r :: runs' =>
      let '(st1, rs) := handle_request JSON_parse CACHE_MAX_AGE st (rr_req r) (rr_now r)
                          (rr_random r) (rr_latency r) (rr_up r) in
      let '(st2, outs) := run_requests JSON_parse CACHE_MAX_AGE st1 runs' in
      (st2, rs :: outs)
  end.

(** The shape of every relay reachable from [WsRelay.initial]. *)
Definition relay_inv (r : WsRelay.relay) : Prop :=
  WsRelay.listeners r = seq 0 (WsRelay.connCnt r)
  /\ Forall (fun p => (p.1 < WsRelay.connCnt r)%nat) (WsRelay.delivered r).

(* ================================================================== *)
(** * Properties *)

Example stringify_test :
  Stringify.stringify (JArray [JNumber 1234; JNumber (-5); JNumber 0; JNull; JBool true;
                               JArray []])
  = "[1234,-5,0,null,true,[]]".
Proof. reflexivity. Qed.

Example getCacheKey_test :
  getCacheKey (mkRequest "eth_blockNumber" (Some (JArray [])) (JNumber 1))
  = "eth_blockNumber[]".
Proof. reflexivity. Qed.

(* ------------------------------------------------------------------ *)
(** ** Retrying upstream calls *)

(** Whether a caught [err] has an [err.response], the case in which line
    233 throws. *)
Definition carries_response (e : js_error) : bool :=
  match e with
  | AxiosFailure a => match ax_response a with Some _ => true | None => false end
  | _ => false
  end.

Lemma forwardedErr_no_response (e : js_error) :
  carries_response e = false -> exists v, Upstream.forwardedErr e = Ok v.
Proof.
  destruct e as [| | |a| |]; simpl; try (intros; eexists; reflexivity).
  destruct (ax_response a); [discriminate|]. destruct (ax_request a); intros; eexists; reflexivity.
Qed.

Lemma forwardedErr_response (e : js_error) :
  carries_response e = true -> Upstream.forwardedErr e = Throw Upstream.circular_json_error.
Proof.
  destruct e as [| | |a| |]; simpl; try discriminate.
  destruct (ax_response a); [reflexivity|discriminate].
Qed.

Lemma forwardedErr_throws (e e' : js_error) :
  Upstream.forwardedErr e = Throw e' -> e' = Upstream.circular_json_error.
Proof.
  destruct (carries_response e) eqn:H.
  - rewrite (forwardedErr_response e H). congruence.
  - destruct (forwardedErr_no_response e H) as [v Hv]. congruence.
Qed.

Lemma upstream_no_response_failures (post : nat -> js_result axios_response)
    (calls n : nat) (t : Z) :
  (forall i, (i <= n)%nat ->
     exists e, post (calls + i)%nat = Throw e /\ carries_response e = false) ->
  Upstream.upstreamHttpRequest post calls n t
  = (backoff_trace n t, Throw (ReferenceError "forwardErr is not defined")).
Proof.
  revert calls t. induction n as [|n IH]; intros calls t Hfail;
    destruct (Hfail 0%nat ltac:(lia)) as [e [He Hr]]; rewrite Nat.add_0_r in He;
    destruct (forwardedErr_no_response e Hr) as [v Hv]; simpl; rewrite He, Hv.
  - reflexivity.
  - rewrite IH; [reflexivity|].
    intros i Hi. destruct (Hfail (S i) ltac:(lia)) as [e' He'].
    exists e'. replace (S calls + i)%nat with (calls + S i)%nat by lia. exact He'.
Qed.

Lemma upstream_response_failure (post : nat -> js_result axios_response)
    (calls k n : nat) (t : Z) (e : js_error) :
  (k <= n)%nat ->
  (forall i, (i < k)%nat ->
     exists e', post (calls + i)%nat = Throw e' /\ carries_response e' = false) ->
  post (calls + k)%nat = Throw e -> carries_response e = true ->
  Upstream.upstreamHttpRequest post calls n t = (backoff_trace k t, Throw Upstream.circular_json_error).
Proof.
  revert calls n t. induction k as [|k IH]; intros calls n t Hk Hfail He Hr.
  - rewrite Nat.add_0_r in He. destruct n; simpl; rewrite He, (forwardedErr_response e Hr);
      reflexivity.
  - destruct n as [|n]; [lia|].
    destruct (Hfail 0%nat ltac:(lia)) as [e0 [He0 Hr0]]. rewrite Nat.add_0_r in He0.
    destruct (forwardedErr_no_response e0 Hr0) as [v Hv]. simpl. rewrite He0, Hv.
    rewrite (IH (S calls) n (t * 2)); [reflexivity|lia| | |exact Hr].
    + intros i Hi. destruct (Hfail (S i) ltac:(lia)) as [e' He'].
      exists e'. replace (S calls + i)%nat with (calls + S i)%nat by lia. exact He'.
    + replace (S calls + k)%nat with (calls + S k)%nat by lia. exact He.
Qed.

Lemma upstream_failing_outcome (post : nat -> js_result axios_response) (calls n : nat) (t : Z) :
  (forall i, exists e, post i = Throw e) ->
  snd (Upstream.upstreamHttpRequest post calls n t) = Throw (ReferenceError "forwardErr is not defined")
  \/ snd (Upstream.upstreamHttpRequest post calls n t) = Throw Upstream.circular_json_error.
Proof.
  intros Hfail. revert calls t. induction n as [|n IH]; intros calls t;
    destruct (Hfail calls) as [e He]; simpl; rewrite He;
    destruct (Upstream.forwardedErr e) as [v|e'] eqn:Hv;
    try (right; simpl; f_equal; exact (forwardedErr_throws e e' Hv)).
  - left. reflexivity.
  - destruct (IH (S calls) (t * 2));
      destruct (Upstream.upstreamHttpRequest post (S calls) n (t * 2)) as [tr res];
      simpl in *; auto.
Qed.




(** C1 (code_bug). When every attempt fails, [upstreamHttpRequest] never
    hands the last failure to its caller. A failure that carries an HTTP
    response ([err.response]) makes line 233 throw the [TypeError] of
    [JSON.stringify] on the circular response object, at once and without
    a retry; when no failure carries a response the call retries 10 times
    and then throws a [ReferenceError] for the undeclared identifier
    [forwardErr] (line 247 names [forwardErr], the variable is
    [forwardedErr]). Neither is any failure observed from the upstream. *)
Theorem upstream_exhaustion_never_surfaces_failure
    (post : nat -> js_result axios_response) (fail : nat -> axios_error)
    (Hfail : forall n, post n = Throw (AxiosFailure (fail n))) :
  let '(tr, res) := Upstream.upstream_call post in
  (res = Throw (ReferenceError "forwardErr is not defined")
   \/ res = Throw Upstream.circular_json_error)
  /\ (forall n, res <> Throw (AxiosFailure (fail n)))
  /\ ((forall n, (n <= 10)%nat -> ax_response (fail n) = None) ->
      tr = backoff_trace 10 2000 /\ res = Throw (ReferenceError "forwardErr is not defined"))
  /\ (forall k, (k <= 10)%nat -> (forall i, (i < k)%nat -> ax_response (fail i) = None) ->
      ax_response (fail k) <> None ->
      tr = backoff_trace k 2000 /\ res = Throw Upstream.circular_json_error).
Proof.
  assert (Hout := upstream_failing_outcome post 0 10 2000
                    (fun i => ex_intro _ _ (Hfail i))).
  assert (Hnr : forall n, (n <= 10)%nat -> ax_response (fail n) = None ->
                exists e, post (0 + n)%nat = Throw e /\ carries_response e = false).
  { intros n _ Hn. exists (AxiosFailure (fail n)). split; [apply Hfail|]. simpl. rewrite Hn.
    reflexivity. }
  unfold Upstream.upstream_call in *.
  destruct (Upstream.upstreamHttpRequest post 0 10 2000) as [tr res] eqn:E. simpl in Hout.
  split; [exact Hout|]. split.
  - intros n. destruct Hout as [-> | ->]; discriminate.
  - split.
    + intros Hnone. rewrite upstream_no_response_failures in E.
      * injection E as <- <-. split; reflexivity.
      * intros i Hi. apply Hnr; [exact Hi | apply Hnone; exact Hi].
    + intros k Hk Hpre Hk'. rewrite (upstream_response_failure post 0 k 10 2000
                                   (AxiosFailure (fail k)) Hk) in E.
      * injection E as <- <-. split; reflexivity.
      * intros i Hi. apply Hnr; [lia | apply Hpre; exact Hi].
      * apply Hfail.
      * simpl. destruct (ax_response (fail k)); [reflexivity | congruence].
Qed.

Lemma upstream_exhaustion_never_surfaces_failure_witness :
  Upstream.upstream_call
    (fun _ => Throw (AxiosFailure (mkAxiosError (Some (mkHttpResponse 502 JNull)) None)))
  = ([Upstream.EPost], Throw Upstream.circular_json_error)
  /\ Upstream.upstream_call
       (fun _ => Throw (AxiosFailure (mkAxiosError None (Some (mkClientRequest None)))))
     = (backoff_trace 10 2000, Throw (ReferenceError "forwardErr is not defined")).
Proof.
  split.
  - pose proof (upstream_exhaustion_never_surfaces_failure
                  (fun _ => Throw (AxiosFailure (mkAxiosError (Some (mkHttpResponse 502 JNull)) None)))
                  (fun _ => mkAxiosError (Some (mkHttpResponse 502 JNull)) None)
                  (fun n => eq_refl)) as H.
    destruct (Upstream.upstream_call _) as [tr res].
    destruct H as [_ [_ [_ H]]].
    destruct (H 0%nat ltac:(lia) ltac:(intros i Hi; lia) ltac:(discriminate)) as [-> ->].
    reflexivity.
  - pose proof (upstream_exhaustion_never_surfaces_failure
                  (fun _ => Throw (AxiosFailure (mkAxiosError None (Some (mkClientRequest None)))))
                  (fun _ => mkAxiosError None (Some (mkClientRequest None)))
                  (fun n => eq_refl)) as H.
    destruct (Upstream.upstream_call _) as [tr res].
    destruct H as [_ [_ [H _]]].
    destruct (H ltac:(intros; reflexivity)) as [-> ->]. reflexivity.
Defined.




(* ------------------------------------------------------------------ *)
(** ** Cache policy of the handler *)

Definition empty_state : state := mkState (mkStore ∅ None) ∅ 0 0 0.

Definition eth_call_at_block : rpc_request :=
  mkRequest "eth_call"
    (Some (JArray [JObject [("to", JString "0x1")]; JObject [("blockHash", JString "0xab")]]))
    (JNumber 1).

Definition receipt_request : rpc_request :=
  mkRequest "eth_getTransactionReceipt" (Some (JArray [JString "0x99"])) (JNumber 2).

Definition upstream_ok (result : json) : js_result axios_response :=
  Ok (mkAxiosResponse (JObject [("jsonrpc", JString "2.0"); ("id", JNumber 1); ("result", result)])).

(** C3 (code_bug). An [eth_call] that pins a block with a [blockHash]
    parameter is written to the cache but read back with the finite
    maximum age [CACHE_MAX_AGE * 1000], not [Infinity]: with the default
    [CACHE_MAX_AGE = 10], the same call 20 s after the first one misses
    the cache and goes upstream again. Receipt calls
    ([eth_getTransactionReceipt]) are read with [Infinity] but never
    written, so they are never cached, null or not. *)
Theorem eth_call_block_hash_not_immutable
    (JSON_parse : option string -> js_result (option json)) (CACHE_MAX_AGE : Z) :
  cacheMaxAgeMs CACHE_MAX_AGE "eth_call" = Finite (CACHE_MAX_AGE * 1000)
  /\ shouldWriteToCache eth_call_at_block = Ok true
  /\ (let '(st1, r1) := handle_request JSON_parse 10 empty_state eth_call_at_block 0 0 5
                          (upstream_ok (JString "0x2a")) in
      r1 = [SendUpstream (data (mkAxiosResponse (JObject [("jsonrpc", JString "2.0");
                                  ("id", JNumber 1); ("result", JString "0x2a")])))]
      /\ (exists e, cache (st_store st1) !! getCacheKey eth_call_at_block = Some e)
      /\ snd (handle_request JSON_parse 10 st1 eth_call_at_block 20000 0 5
                (upstream_ok (JString "0x2a")))
         = [SendUpstream (JObject [("jsonrpc", JString "2.0"); ("id", JNumber 1);
                                   ("result", JString "0x2a")])])
  /\ cacheMaxAgeMs CACHE_MAX_AGE (method receipt_request) = Infinity
  /\ shouldWriteToCache receipt_request = Ok false.
Proof.
  split; [reflexivity|]. split; [reflexivity|].
  split; [|split; reflexivity].
  vm_compute. split; [reflexivity|]. split; [eexists; reflexivity|reflexivity].
Qed.

(* ------------------------------------------------------------------ *)
(** ** The duplicate detector *)

Lemma extra_delay_bounds (r : Q) :
  (0 <= r)%Q -> (r < 1)%Q -> 0 <= Qfloor (r * inject_Z 1000) < 1000.
Proof.
  intros H0 H1. split.
  - change 0 with (Qfloor 0). apply Qfloor_resp_le.
    apply Qmult_le_0_compat; [exact H0|]. unfold Qle; simpl; lia.
  - rewrite Zlt_Qlt. eapply Qle_lt_trans; [apply Qfloor_le|].
    apply Qlt_le_trans with (1 * inject_Z 1000)%Q.
    + apply Qmult_lt_compat_r; [unfold Qlt; simpl; lia | exact H1].
    + unfold Qle; simpl; lia.
Qed.

(** C7. A request is put to sleep exactly when the duplicate detector has a
    record for its key less than 1000 ms old; the delay then lies in
    [[500, 1500)]; otherwise the handler goes on without waiting. *)
Theorem duplicate_delay_iff_recent
    (JSON_parse : option string -> js_result (option json)) (CACHE_MAX_AGE : Z)
    (st : state) (req : rpc_request) (now : Z) (random : Q)
    (Hr0 : (0 <= random)%Q) (Hr1 : (random < 1)%Q) :
  ((exists d, snd (handler_start JSON_parse CACHE_MAX_AGE st req now random) = Sleeping d)
   <-> exists prevCallTs, duplicateDetector st !! getCacheKey req = Some prevCallTs
                          /\ now - prevCallTs < DUPLICATE_DELAY_TRIGGER_THRESHOLD_MS)
  /\ (forall d, snd (handler_start JSON_parse CACHE_MAX_AGE st req now random) = Sleeping d ->
                500 <= d < 1500).
Proof.
  pose proof (extra_delay_bounds random Hr0 Hr1) as Hb.
  unfold handler_start, duplicate_delay, DUPLICATE_DELAY_TRIGGER_THRESHOLD_MS,
    DUPLICATE_MIN_DELAY_MS, DUPLICATE_RANDOM_MAX_EXTRA_DELAY_MS.
  set (q := Qfloor (random * inject_Z 1000)) in *. clearbody q.
  destruct (duplicateDetector st !! getCacheKey req) as [p|] eqn:Hp.
  - destruct (now - p <? 1000) eqn:Hlt.
    + apply Z.ltb_lt in Hlt. cbn [snd]. split.
      * split; intros _.
        -- exists p; split; [reflexivity | exact Hlt].
        -- eexists; reflexivity.
      * intros d Hd. injection Hd as <-. lia.
    + apply Z.ltb_ge in Hlt.
      destruct (handler_lookup JSON_parse CACHE_MAX_AGE st req now) as [st' r]. cbn [snd]. split.
      * split; [intros [d Hd]; discriminate|]. intros [p0 [Hq Hq']]. injection Hq as <-. lia.
      * intros d Hd. discriminate.
  - destruct (handler_lookup JSON_parse CACHE_MAX_AGE st req now) as [st' r]. cbn [snd]. split.
    + split; [intros [d Hd]; discriminate|]. intros [p0 [Hq _]]. discriminate.
    + intros d Hd. discriminate.
Qed.

Definition block_number_request : rpc_request :=
  mkRequest "eth_blockNumber" (Some (JArray [])) (JNumber 3).

Definition recently_seen_state : state :=
  mkState (mkStore ∅ None) {[getCacheKey block_number_request := 0]} 1 0 0.

Lemma duplicate_delay_iff_recent_witness :
  handler_start (fun _ => Ok None) 10 recently_seen_state block_number_request 100 (1#2)
  = (recently_seen_state, Sleeping 1000)
  /\ (forall d, snd (handler_start (fun _ => Ok None) 10 recently_seen_state
                      block_number_request 100 (1#2)) = Sleeping d -> 500 <= d < 1500).
Proof.
  split; [vm_compute; reflexivity|].
  apply (duplicate_delay_iff_recent (fun _ => Ok None) 10 recently_seen_state
           block_number_request 100 (1#2)); unfold Qle, Qlt; simpl; lia.
Defined.

(** C4, refuted. A request that is put to sleep does not record its
    arrival time before the delay: right after a request for the key
    arrives at 100 ms and is delayed, the record for its key still holds
    the earlier 0 ms, so a duplicate arriving at 200 ms sees 0. *)
Lemma duplicate_record_counterexample :
  ~ (forall (JSON_parse : option string -> js_result (option json)) (CACHE_MAX_AGE : Z)
            (st : state) (req : rpc_request) (now : Z) (random : Q),
       duplicateDetector (fst (handler_start JSON_parse CACHE_MAX_AGE st req now random))
         !! getCacheKey req = Some now).
Proof.
  intros H.
  specialize (H (fun _ => Ok None) 10 recently_seen_state block_number_request 100 0%Q).
  vm_compute in H. discriminate.
Qed.

(** C4, amended. A request that gets a duplicate delay leaves the whole
    state, and so the detector record of its key, unchanged until it
    resumes; whenever the handler reaches line 186 at time [t] (at arrival
    when it is not delayed, on resuming after the delay otherwise) it
    records [t] for its key. Duplicates arriving during the delay see the
    previous record. *)
Theorem duplicate_record_set_after_delay
    (JSON_parse : option string -> js_result (option json)) (CACHE_MAX_AGE : Z)
    (st : state) (req : rpc_request) (now : Z) (random : Q) :
  match handler_start JSON_parse CACHE_MAX_AGE st req now random with
  | (st', Sleeping _) => st' = st
  | (st', Looked _) => duplicateDetector st' !! getCacheKey req = Some now
  end
  /\ (forall t, duplicateDetector (fst (handler_lookup JSON_parse CACHE_MAX_AGE st req t))
                  !! getCacheKey req = Some t).
Proof.
  assert (Hl : forall t, duplicateDetector (fst (handler_lookup JSON_parse CACHE_MAX_AGE st req t))
                           !! getCacheKey req = Some t).
  { intros t. unfold handler_lookup.
    destruct (getResponseFromCache _ _ _ _ _ _) as [[r|] s']; simpl;
      apply lookup_insert_eq. }
  split; [|exact Hl].
  unfold handler_start.
  destruct (duplicate_delay _ _ _ _); [reflexivity|].
  specialize (Hl now). destruct (handler_lookup _ _ st req now) as [st' r]. exact Hl.
Qed.

(* ------------------------------------------------------------------ *)
(** ** Cache reads and writes *)

Lemma get_absent (JSON_parse : option string -> js_result (option json))
    (st : store) (key : string) (ma : max_age) (reqId : json) (now : Z) :
  cache st !! key = None ->
  getResponseFromCache JSON_parse st key ma reqId now = (None, st).
Proof.
  intros H. unfold getResponseFromCache. rewrite H.
  destruct (db st) as [d|]; [|reflexivity].
  unfold getFromDb. cbn [js_bind].
  destruct (d !! key) as [row|]; [|reflexivity].
  reflexivity.
Qed.

Lemma get_present (JSON_parse : option string -> js_result (option json))
    (st : store) (key : string) (ma : max_age) (reqId : json) (now : Z) (e : entry) :
  cache st !! key = Some e ->
  getResponseFromCache JSON_parse st key ma reqId now
  = if fresh now (ts e) ma
    then ((if is_present (val e)
           then match val e with Some j => Some (mkResponse "2.0" reqId j) | None => None end
           else None),
          mkStore (<[key := mkEntry (ts e) (val e) (readCnt e + 1) (writeCnt e)]> (cache st)) (db st))
    else (None, st).
Proof.
  intros H. unfold getResponseFromCache. rewrite H.
  destruct (fresh now (ts e) ma); [|reflexivity].
  destruct (is_present (val e)); reflexivity.
Qed.

Lemma handler_lookup_miss (JSON_parse : option string -> js_result (option json))
    (CACHE_MAX_AGE : Z) (st : state) (req : rpc_request) (now : Z) :
  fst (getResponseFromCache JSON_parse (st_store st) (getCacheKey req)
         (cacheMaxAgeMs CACHE_MAX_AGE (method req)) (req_id req) now) = None ->
  snd (handler_lookup JSON_parse CACHE_MAX_AGE st req now) = Miss.
Proof.
  unfold handler_lookup.
  destruct (getResponseFromCache _ _ _ _ _ _) as [[r|] s']; simpl; [discriminate|reflexivity].
Qed.

(** C5. A stored [null], in the in-memory map or in the sqlite table, is
    never served: [getResponseFromCache] returns [undefined] for its key,
    whatever the maximum age, and the handler treats the request as a miss
    and forwards it upstream. *)
Theorem null_value_never_served
    (JSON_parse : option string -> js_result (option json)) (CACHE_MAX_AGE : Z)
    (st : state) (req : rpc_request) (ma : max_age) (now : Z)
    (Hnull : (exists e, cache (st_store st) !! getCacheKey req = Some e /\ val e = Some JNull)
             \/ (cache (st_store st) !! getCacheKey req = None
                 /\ exists d row, db (st_store st) = Some d /\ d !! getCacheKey req = Some row
                                  /\ row_val row = Some "null")) :
  (forall reqId,
     fst (getResponseFromCache JSON_parse (st_store st) (getCacheKey req) ma reqId now) = None)
  /\ snd (handler_lookup JSON_parse CACHE_MAX_AGE st req now) = Miss.
Proof.
  assert (H : forall ma' reqId,
             fst (getResponseFromCache JSON_parse (st_store st) (getCacheKey req) ma' reqId now)
             = None).
  { intros ma' reqId. destruct Hnull as [[e [He Hv]] | [Ha _]].
    - rewrite (get_present _ _ _ _ _ _ e He), Hv. simpl.
      destruct (fresh now (ts e) ma'); reflexivity.
    - rewrite (get_absent _ _ _ _ _ _ Ha). reflexivity. }
  split; [intros; apply H|]. apply handler_lookup_miss. apply H.
Qed.

Definition null_receipt_state : state :=
  mkState (mkStore {[getCacheKey receipt_request := mkEntry 0 (Some JNull) 0 1]} None) ∅ 1 1 0.

Lemma null_value_never_served_witness :
  snd (handler_lookup (fun _ => Ok None) 10 null_receipt_state receipt_request 5) = Miss.
Proof.
  apply (proj2 (null_value_never_served (fun _ => Ok None) 10 null_receipt_state
                  receipt_request Infinity 5
                  (or_introl (ex_intro _ (mkEntry 0 (Some JNull) 0 1)
                                (conj (lookup_insert_eq _ _ _) eq_refl))))).
Defined.

Definition null_entry_store : store :=
  mkStore {["k" := mkEntry 0 (Some JNull) 0 1]} None.

(** C6, refuted. An in-memory entry that exists and is fresh is not served
    when its value is [null]. *)
Lemma fresh_entry_not_served_counterexample :
  ~ (forall (JSON_parse : option string -> js_result (option json)) (st : store) (key : string)
            (ma : max_age) (reqId : json) (now : Z),
       (exists r, fst (getResponseFromCache JSON_parse st key ma reqId now) = Some r)
       <-> exists e, cache st !! key = Some e /\ fresh now (ts e) ma = true).
Proof.
  intros H.
  destruct (proj2 (H (fun _ => Ok None) null_entry_store "k" Infinity JNull 0)) as [r Hr].
  - eexists. split; reflexivity.
  - vm_compute in Hr. discriminate.
Qed.

(** C6, amended. With the in-memory backing (no [DB_FILE]),
    [getResponseFromCache] serves a hit iff the in-memory map
    holds an entry for the key with [now - ts <= maxAgeMs] (always when
    [maxAgeMs] is [Infinity]) and a value that is neither [null] nor
    [undefined]; the hit carries that value and the caller's id. For the
    volatile [eth_blockNumber] with [CACHE_MAX_AGE = 1], a call 2 s after
    the write misses and is forwarded upstream again. *)
Theorem served_iff_fresh_and_present
    (JSON_parse : option string -> js_result (option json))
    (st : store) (key : string) (ma : max_age) (reqId : json) (now : Z)
    (Hmem : db st = None) :
  ((exists r, fst (getResponseFromCache JSON_parse st key ma reqId now) = Some r)
   <-> exists e, cache st !! key = Some e /\ fresh now (ts e) ma = true
                 /\ is_present (val e) = true)
  /\ (forall r e, fst (getResponseFromCache JSON_parse st key ma reqId now) = Some r ->
                  cache st !! key = Some e -> val e = Some (rs_result r) /\ rs_id r = reqId)
  /\ cacheMaxAgeMs 1 "eth_blockNumber" = Finite 1000
  /\ (let st1 := fst (handle_request JSON_parse 1 empty_state block_number_request 0 0 5
                        (upstream_ok (JString "0x10"))) in
      (exists e, cache (st_store st1) !! getCacheKey block_number_request = Some e /\ ts e = 5)
      /\ snd (handle_request JSON_parse 1 st1 block_number_request 2005 0 5
                (upstream_ok (JString "0x11")))
         = [SendUpstream (JObject [("jsonrpc", JString "2.0"); ("id", JNumber 1);
                                   ("result", JString "0x11")])]).
Proof.
  split; [|split; [|split; [reflexivity|]]].
  - destruct (cache st !! key) as [e|] eqn:He.
    + rewrite (get_present _ _ _ _ _ _ e He).
      destruct (fresh now (ts e) ma) eqn:Hf; simpl.
      * destruct (val e) as [[] |] eqn:Hv; simpl; split;
          try (intros [r Hr]; discriminate); try (intros [e' [He' [_ Hp]]]; 
            injection He' as <-; rewrite Hv in Hp; discriminate);
          intros _; first [eexists; reflexivity | exists e; rewrite Hv; auto].
      * split; [intros [r Hr]; discriminate|]. intros [e' [He' [Hf' _]]].
        injection He' as <-. congruence.
    + rewrite (get_absent _ _ _ _ _ _ He). simpl. split; [intros [r Hr]; discriminate|].
      intros [e [He' _]]. discriminate.
  - intros r e Hr He. rewrite (get_present _ _ _ _ _ _ e He) in Hr.
    destruct (fresh now (ts e) ma); [|discriminate]. simpl in Hr.
    destruct (is_present (val e)); [|discriminate].
    destruct (val e) as [j|]; [|discriminate]. injection Hr as <-. auto.
  - vm_compute. split; [eexists; split; reflexivity|reflexivity].
Qed.

Definition fresh_value_store : store :=
  mkStore {[ "k" := mkEntry 0 (Some (JString "0x1")) 0 1 ]} None.

Lemma served_iff_fresh_and_present_witness :
  db fresh_value_store = None
  /\ fst (getResponseFromCache (fun _ => Ok None) fresh_value_store "k" Infinity (JNumber 3) 10)
     = Some (mkResponse "2.0" (JNumber 3) (JString "0x1"))
  /\ (exists e, cache fresh_value_store !! "k" = Some e /\ fresh 10 (ts e) Infinity = true
                /\ is_present (val e) = true).
Proof.
  split; [reflexivity|]. split; [vm_compute; reflexivity|].
  apply (proj1 (served_iff_fresh_and_present (fun _ => Ok None) fresh_value_store "k"
                  Infinity (JNumber 3) 10 eq_refl)).
  exists (mkResponse "2.0" (JNumber 3) (JString "0x1")). vm_compute. reflexivity.
Defined.

Lemma entry_eta (e : entry) : mkEntry (ts e) (val e) (readCnt e) (writeCnt e) = e.
Proof. destruct e; reflexivity. Qed.

(** C8, refuted. A fresh in-memory entry holding [null] has its [readCnt]
    bumped, from 0 to 1, by a lookup that serves no hit. *)
Lemma read_count_without_hit_counterexample :
  let '(r, st') := getResponseFromCache (fun _ => Ok None) null_entry_store "k" Infinity JNull 0 in
  r = None
  /\ option_map readCnt (cache null_entry_store !! "k") = Some 0
  /\ option_map readCnt (cache st' !! "k") = Some 1.
Proof. vm_compute. auto. Qed.

(** C8, amended. With the in-memory backing (no [DB_FILE]): a write
    replaces the entry of its key by one with [ts = now], the previous
    [readCnt] (0 for a new key) and [writeCnt] one more (1 for a new key);
    a lookup bumps [readCnt] by one exactly when the entry is fresh,
    whether or not its value is served (a [null] or [undefined] value is
    not), and changes nothing else; and when the clock is not behind any
    stored [ts], no operation removes an entry or decreases its [ts]. *)
Theorem cache_entry_bookkeeping
    (JSON_parse : option string -> js_result (option json)) (st : store)
    (Hmem : db st = None) :
  (forall key v now,
     cache (writeResponseToCache st key v now)
     = <[key := mkEntry now v (match cache st !! key with Some e => readCnt e | None => 0 end)
                         (match cache st !! key with Some e => writeCnt e + 1 | None => 1 end)]>
         (cache st))
  /\ (forall key ma reqId now e,
        cache st !! key = Some e ->
        cache (snd (getResponseFromCache JSON_parse st key ma reqId now))
        = <[key := mkEntry (ts e) (val e)
                     (if fresh now (ts e) ma then readCnt e + 1 else readCnt e) (writeCnt e)]>
            (cache st))
  /\ (forall key ma reqId now,
        cache st !! key = None ->
        cache (snd (getResponseFromCache JSON_parse st key ma reqId now)) = cache st)
  /\ (forall op,
        (forall k e, cache st !! k = Some e -> ts e <= op_time op) ->
        forall k e, cache st !! k = Some e ->
        exists e', cache (snd (exec_op JSON_parse st op)) !! k = Some e' /\ ts e <= ts e').
Proof.
  assert (Hw : forall key v now,
     cache (writeResponseToCache st key v now)
     = <[key := mkEntry now v (match cache st !! key with Some e => readCnt e | None => 0 end)
                         (match cache st !! key with Some e => writeCnt e + 1 | None => 1 end)]>
         (cache st)).
  { intros. unfold writeResponseToCache. rewrite Hmem. reflexivity. }
  assert (Hg : forall key ma reqId now e,
        cache st !! key = Some e ->
        cache (snd (getResponseFromCache JSON_parse st key ma reqId now))
        = <[key := mkEntry (ts e) (val e)
                     (if fresh now (ts e) ma then readCnt e + 1 else readCnt e) (writeCnt e)]>
            (cache st)).
  { intros key ma reqId now e He. rewrite (get_present _ _ _ _ _ _ e He).
    destruct (fresh now (ts e) ma); [reflexivity|].
    simpl. rewrite entry_eta. symmetry. apply insert_id. exact He. }
  assert (Ha : forall key ma reqId now,
        cache st !! key = None ->
        cache (snd (getResponseFromCache JSON_parse st key ma reqId now)) = cache st).
  { intros key ma reqId now He. rewrite (get_absent _ _ _ _ _ _ He). reflexivity. }
  split; [exact Hw|]. split; [exact Hg|]. split; [exact Ha|].
  intros op Hclock k e He. destruct op as [key ma reqId now | key v now]; simpl.
  - destruct (cache st !! key) as [e0|] eqn:He0.
    + rewrite (Hg key ma reqId now e0 He0).
      destruct (decide (k = key)) as [->|Hne].
      * rewrite lookup_insert_eq. eexists; split; [reflexivity|].
        rewrite He0 in He. injection He as <-. simpl. lia.
      * rewrite lookup_insert_ne by congruence. exists e; split; [exact He | lia].
    + rewrite (Ha key ma reqId now He0). exists e; split; [exact He | lia].
  - rewrite Hw. destruct (decide (k = key)) as [->|Hne].
    + rewrite lookup_insert_eq. eexists; split; [reflexivity|].
      simpl. exact (Hclock key e He).
    + rewrite lookup_insert_ne by congruence. exists e; split; [exact He | lia].
Qed.

Lemma cache_entry_bookkeeping_witness :
  cache (snd (getResponseFromCache (fun _ => Ok None) null_entry_store "k" Infinity JNull 0))
  = <[ "k" := mkEntry 0 (Some JNull) 1 1 ]> (cache null_entry_store).
Proof.
  exact (proj1 (proj2 (cache_entry_bookkeeping (fun _ => Ok None) null_entry_store eq_refl))
           "k" Infinity JNull 0 (mkEntry 0 (Some JNull) 0 1) (lookup_insert_eq _ _ _)).
Defined.

(* ------------------------------------------------------------------ *)
(** ** The durable backing *)

Lemma durable_exec_op (JSON_parse : option string -> js_result (option json))
    (st : store) (op : cache_op) :
  (exists d, db st = Some d) -> cache st = ∅ ->
  fst (exec_op JSON_parse st op) = None
  /\ cache (snd (exec_op JSON_parse st op)) = ∅
  /\ exists d, db (snd (exec_op JSON_parse st op)) = Some d.
Proof.
  intros [d Hd] Hc. destruct op as [key ma reqId now | key v now]; simpl.
  - rewrite get_absent by (rewrite Hc; apply lookup_empty). simpl. eauto.
  - unfold writeResponseToCache. rewrite Hd. simpl. eauto.
Qed.

(** C10. When [DB_FILE] is set, [writeResponseToCache] only writes to the
    sqlite table and leaves the in-memory map unchanged; a lookup of a key
    absent from the map returns [undefined] even when the table holds a
    fresh row (the freshness test reads [cache.get(key).ts] of the missing
    entry, and the [TypeError] is caught as a miss); so, starting from the
    empty map, every lookup of any sequence of operations misses and the
    map stays empty. *)
Theorem durable_backing_never_served
    (JSON_parse : option string -> js_result (option json)) (st : store)
    (d : gmap string db_row) (Hdb : db st = Some d) :
  (forall key v now, cache (writeResponseToCache st key v now) = cache st)
  /\ (forall key ma reqId now,
        cache st !! key = None ->
        fst (getResponseFromCache JSON_parse st key ma reqId now) = None)
  /\ (cache st = ∅ ->
      forall ops, Forall (fun r => r = None) (fst (run_ops JSON_parse st ops))
                  /\ cache (snd (run_ops JSON_parse st ops)) = ∅).
Proof.
  split; [intros; unfold writeResponseToCache; rewrite Hdb; reflexivity|].
  split; [intros key ma reqId now H; rewrite get_absent by exact H; reflexivity|].
  intros Hc ops. assert (Hd : exists d, db st = Some d) by eauto.
  clear Hdb. revert st Hd Hc. induction ops as [|op ops IH]; intros st Hd Hc; simpl.
  - split; [constructor | exact Hc].
  - destruct (durable_exec_op JSON_parse st op Hd Hc) as [Hr [Hc' Hd']].
    destruct (exec_op JSON_parse st op) as [r st1]. simpl in *.
    destruct (IH st1 Hd' Hc') as [Hrs Hst].
    destruct (run_ops JSON_parse st1 ops) as [rs st2]. simpl in *.
    split; [constructor; assumption | exact Hst].
Qed.

Definition db_with_fresh_row : store :=
  mkStore ∅ (Some {[ getCacheKey block_number_request := mkRow (Some "16") 100 ]}).

Lemma durable_backing_never_served_witness :
  fst (getResponseFromCache (fun _ => Ok (Some (JNumber 16))) db_with_fresh_row
         (getCacheKey block_number_request) Infinity (JNumber 1) 100) = None.
Proof.
  exact (proj1 (proj2 (durable_backing_never_served (fun _ => Ok (Some (JNumber 16)))
                         db_with_fresh_row _ eq_refl))
           (getCacheKey block_number_request) Infinity (JNumber 1) 100 (lookup_empty _)).
Defined.

(* ------------------------------------------------------------------ *)
(** ** The cache key *)








(* ================================================================== *)
(** * Further properties of the code *)

(* ------------------------------------------------------------------ *)
(** ** How a request runs through the handler *)

Lemma handle_request_normal (JSON_parse : option string -> js_result (option json))
    (CACHE_MAX_AGE : Z) (st : state) (req : rpc_request) (now : Z) (random : Q)
    (latency : Z) (up : js_result axios_response) :
  handle_request JSON_parse CACHE_MAX_AGE st req now random latency up =
  let t := match duplicate_delay (duplicateDetector st) (getCacheKey req) now random with
           | Some d => now + d
           | None => now
           end in
  match handler_lookup JSON_parse CACHE_MAX_AGE st req t with
  | (st2, Hit resp) => (st2, [SendCached resp])
  | (st2, Miss) => handler_upstream_done st2 req (t + latency) up
  end.
Proof.
  unfold handle_request, handler_start.
  destruct (duplicate_delay _ _ _ _) as [d|];
    destruct (handler_lookup JSON_parse CACHE_MAX_AGE st req _) as [st2 [r|]]; reflexivity.
Qed.

Lemma get_keeps_db (JSON_parse : option string -> js_result (option json))
    (st : store) (key : string) (ma : max_age) (reqId : json) (now : Z) :
  db (snd (getResponseFromCache JSON_parse st key ma reqId now)) = db st.
Proof.
  destruct (cache st !! key) as [e|] eqn:He.
  - rewrite (get_present _ _ _ _ _ _ e He).
    destruct (fresh now (ts e) ma); reflexivity.
  - rewrite (get_absent _ _ _ _ _ _ He). reflexivity.
Qed.

Lemma get_keeps_absent (JSON_parse : option string -> js_result (option json))
    (st : store) (key : string) (ma : max_age) (reqId : json) (now : Z) (k : string) :
  cache st !! k = None ->
  cache (snd (getResponseFromCache JSON_parse st key ma reqId now)) !! k = None.
Proof.
  intros Hk. destruct (cache st !! key) as [e|] eqn:He.
  - rewrite (get_present _ _ _ _ _ _ e He).
    destruct (fresh now (ts e) ma); simpl; [|exact Hk].
    rewrite lookup_insert_ne; [exact Hk|]. congruence.
  - rewrite (get_absent _ _ _ _ _ _ He). exact Hk.
Qed.

Lemma handler_lookup_parts (JSON_parse : option string -> js_result (option json))
    (CACHE_MAX_AGE : Z) (st : state) (req : rpc_request) (t : Z) :
  let '(st2, r) := handler_lookup JSON_parse CACHE_MAX_AGE st req t in
  let g := getResponseFromCache JSON_parse (st_store st) (getCacheKey req)
             (cacheMaxAgeMs CACHE_MAX_AGE (method req)) (req_id req) t in
  st_store st2 = snd g
  /\ duplicateDetector st2 = <[getCacheKey req := t]> (duplicateDetector st)
  /\ httpUpstreamResCnt st2 = httpUpstreamResCnt st
  /\ match r with
     | Hit resp => fst g = Some resp /\ httpReqCnt st2 = httpReqCnt st + 1
                   /\ httpCacheResCnt st2 = httpCacheResCnt st + 1
     | Miss => fst g = None /\ httpReqCnt st2 = httpReqCnt st
               /\ httpCacheResCnt st2 = httpCacheResCnt st
     end.
Proof.
  unfold handler_lookup.
  destruct (getResponseFromCache _ _ _ _ _ _) as [[resp|] s'] eqn:E; simpl;
    repeat split; try reflexivity; lia.
Qed.

Lemma lookup_miss_of_absent (JSON_parse : option string -> js_result (option json))
    (CACHE_MAX_AGE : Z) (st : state) (req : rpc_request) (t : Z) :
  cache (st_store st) !! getCacheKey req = None ->
  snd (handler_lookup JSON_parse CACHE_MAX_AGE st req t) = Miss.
Proof.
  intros H. apply handler_lookup_miss. rewrite get_absent by exact H. reflexivity.
Qed.

Lemma lookup_hit_of_entry (JSON_parse : option string -> js_result (option json))
    (CACHE_MAX_AGE : Z) (st : state) (req : rpc_request) (t : Z) (e : entry) (v : json) :
  cache (st_store st) !! getCacheKey req = Some e ->
  fresh t (ts e) (cacheMaxAgeMs CACHE_MAX_AGE (method req)) = true ->
  val e = Some v -> is_present (Some v) = true ->
  snd (handler_lookup JSON_parse CACHE_MAX_AGE st req t) = Hit (mkResponse "2.0" (req_id req) v).
Proof.
  intros He Hf Hv Hpr. unfold handler_lookup.
  rewrite (get_present _ _ _ _ _ _ e He), Hf, Hv, Hpr. reflexivity.
Qed.

Lemma writeResponseToCache_lookup_mem (st : store) (key : string) (v : option json) (now : Z) :
  db st = None ->
  cache (writeResponseToCache st key v now) !! key
  = Some (mkEntry now v (match cache st !! key with Some e => readCnt e | None => 0 end)
                       (match cache st !! key with Some e => writeCnt e + 1 | None => 1 end)).
Proof. intros H. unfold writeResponseToCache. rewrite H. apply lookup_insert_eq. Qed.

(** Each request ends in exactly one of four ways. A cache hit sends the
    cached envelope, is counted in [httpReqCnt] and [httpCacheResCnt]. An
    upstream answer is counted in [httpUpstreamResCnt] and its body sent;
    when the cache-write step then succeeds the request is counted in
    [httpReqCnt], when it throws the handler's 500 send throws
    [ERR_HTTP_HEADERS_SENT] and [httpReqCnt] is not incremented. A failed
    upstream call is answered with [res.status(500).send(err)] and counted
    in [httpReqCnt] only. *)
Theorem handle_request_counters (JSON_parse : option string -> js_result (option json))
    (CACHE_MAX_AGE : Z) (st : state) (req : rpc_request) (now : Z) (random : Q)
    (latency : Z) (up : js_result axios_response) :
  let '(st', rs) := handle_request JSON_parse CACHE_MAX_AGE st req now random latency up in
  ((exists r, rs = [SendCached r])
   /\ httpReqCnt st' = httpReqCnt st + 1
   /\ httpCacheResCnt st' = httpCacheResCnt st + 1
   /\ httpUpstreamResCnt st' = httpUpstreamResCnt st)
  \/ (exists rpcRes, up = Ok rpcRes
      /\ httpCacheResCnt st' = httpCacheResCnt st
      /\ httpUpstreamResCnt st' = httpUpstreamResCnt st + 1
      /\ (((exists w, write_step req rpcRes = Ok w)
           /\ rs = [SendUpstream (data rpcRes)] /\ httpReqCnt st' = httpReqCnt st + 1)
          \/ ((exists e, write_step req rpcRes = Throw e)
              /\ rs = [SendUpstream (data rpcRes); Rejected headers_sent_error]
              /\ httpReqCnt st' = httpReqCnt st)))
  \/ ((exists e, up = Throw e /\ rs = [Send500 e])
      /\ httpReqCnt st' = httpReqCnt st + 1
      /\ httpCacheResCnt st' = httpCacheResCnt st
      /\ httpUpstreamResCnt st' = httpUpstreamResCnt st).
Proof.
  rewrite handle_request_normal. cbv zeta.
  set (t := match duplicate_delay _ _ _ _ with Some d => now + d | None => now end).
  pose proof (handler_lookup_parts JSON_parse CACHE_MAX_AGE st req t) as Hp.
  destruct (handler_lookup JSON_parse CACHE_MAX_AGE st req t) as [st2 r].
  destruct r as [resp|]; cbv beta iota zeta in Hp.
  - destruct Hp as [_ [_ [Hu [_ [Hr Hc]]]]]. left. eauto.
  - destruct Hp as [_ [_ [Hu [_ [Hr Hc]]]]]. unfold handler_upstream_done.
    destruct up as [rpcRes|err].
    + destruct (shouldWriteToCache req) as [[|]|e] eqn:Ew; cbn [js_bind];
        [destruct (get_prop (data rpcRes) "result") as [res|e] eqn:Eg; cbn [js_bind]|..];
        simpl; right; left; exists rpcRes; (split; [reflexivity|]);
        (split; [exact Hc|]); (split; [lia|]); unfold write_step; rewrite Ew;
        cbn [js_bind]; try rewrite Eg; cbn [js_bind].
      * left. split; [eauto|]. split; [reflexivity|lia].
      * right. split; [eauto|]. split; [reflexivity|exact Hr].
      * left. split; [eauto|]. split; [reflexivity|lia].
      * right. split; [eauto|]. split; [reflexivity|exact Hr].
    + simpl. right; right. split; [eauto|]. split; [lia|]. split; assumption.
Qed.

Lemma get_keeps_entries (JSON_parse : option string -> js_result (option json))
    (st : store) (key : string) (ma : max_age) (reqId : json) (now : Z) (k : string) :
  option_map entry_core (cache (snd (getResponseFromCache JSON_parse st key ma reqId now)) !! k)
  = option_map entry_core (cache st !! k).
Proof.
  destruct (cache st !! key) as [e|] eqn:He.
  - rewrite (get_present _ _ _ _ _ _ e He).
    destruct (fresh now (ts e) ma); [|reflexivity]. simpl.
    destruct (decide (k = key)) as [->|Hne].
    + rewrite lookup_insert_eq, He. reflexivity.
    + rewrite lookup_insert_ne by congruence. reflexivity.
  - rewrite (get_absent _ _ _ _ _ _ He). reflexivity.
Qed.

(** A failed upstream call writes nothing: every cache entry keeps its
    timestamp, value and write count (the lookup may only raise the read
    count of the request's own key), no entry appears, the sqlite table is
    untouched, and the handler answers [res.status(500).send(err)] unless
    the request was served from the cache. *)
Theorem upstream_failure_writes_nothing (JSON_parse : option string -> js_result (option json))
    (CACHE_MAX_AGE : Z) (st : state) (req : rpc_request) (now : Z) (random : Q)
    (latency : Z) (err : js_error) :
  let '(st', rs) := handle_request JSON_parse CACHE_MAX_AGE st req now random latency (Throw err) in
  (rs = [Send500 err] \/ exists r, rs = [SendCached r])
  /\ db (st_store st') = db (st_store st)
  /\ forall k, option_map entry_core (cache (st_store st') !! k)
               = option_map entry_core (cache (st_store st) !! k).
Proof.
  rewrite handle_request_normal. cbv zeta.
  set (t := match duplicate_delay _ _ _ _ with Some d => now + d | None => now end).
  pose proof (handler_lookup_parts JSON_parse CACHE_MAX_AGE st req t) as Hp.
  destruct (handler_lookup JSON_parse CACHE_MAX_AGE st req t) as [st2 r].
  destruct Hp as [Hs _].
  assert (Hdb : db (st_store st2) = db (st_store st)) by (rewrite Hs; apply get_keeps_db).
  assert (Hen : forall k, option_map entry_core (cache (st_store st2) !! k)
                          = option_map entry_core (cache (st_store st) !! k))
    by (intros k; rewrite Hs; apply get_keeps_entries).
  destruct r as [resp|]; simpl; (split; [eauto|split; [exact Hdb|exact Hen]]).
Qed.

(** End to end: for a request with no cache entry, an upstream that fails
    on every attempt makes the handler answer 500 with what
    [upstreamHttpRequest] throws: the [TypeError] of line 233 when a
    failure carries an HTTP response, the [ReferenceError] of line 247
    otherwise. No upstream response is counted and no entry is created. *)
Theorem failing_upstream_answers_500
    (JSON_parse : option string -> js_result (option json)) (CACHE_MAX_AGE : Z)
    (st : state) (req : rpc_request) (now : Z) (random : Q) (latency : Z)
    (post : nat -> js_result axios_response)
    (Hfail : forall n, exists e, post n = Throw e)
    (Habs : cache (st_store st) !! getCacheKey req = None) :
  let '(st', rs) := handle_request JSON_parse CACHE_MAX_AGE st req now random latency
                      (snd (Upstream.upstream_call post)) in
  (rs = [Send500 (ReferenceError "forwardErr is not defined")]
   \/ rs = [Send500 Upstream.circular_json_error])
  /\ httpUpstreamResCnt st' = httpUpstreamResCnt st
  /\ cache (st_store st') !! getCacheKey req = None.
Proof.
  unfold Upstream.upstream_call.
  destruct (upstream_failing_outcome post 0 10 2000 Hfail) as [Hu|Hu]; rewrite Hu;
  rewrite handle_request_normal; cbv zeta;
  set (t := match duplicate_delay _ _ _ _ with Some d => now + d | None => now end);
  pose proof (handler_lookup_parts JSON_parse CACHE_MAX_AGE st req t) as Hp;
  pose proof (lookup_miss_of_absent JSON_parse CACHE_MAX_AGE st req t Habs) as Hm;
  destruct (handler_lookup JSON_parse CACHE_MAX_AGE st req t) as [st2 r];
  simpl in Hm; subst r; destruct Hp as [Hs [_ [Hu' _]]]; simpl;
  (split; [auto|]); (split; [exact Hu'|]); rewrite Hs; apply get_keeps_absent; exact Habs.
Qed.

Lemma failing_upstream_answers_500_witness :
  let '(st', rs) :=
    handle_request (fun _ => Ok None) 10 empty_state block_number_request 0 0 5
      (snd (Upstream.upstream_call
              (fun _ => Throw (AxiosFailure (mkAxiosError None (Some (mkClientRequest None))))))) in
  (rs = [Send500 (ReferenceError "forwardErr is not defined")]
   \/ rs = [Send500 Upstream.circular_json_error])
  /\ httpUpstreamResCnt st' = httpUpstreamResCnt empty_state
  /\ cache (st_store st') !! getCacheKey block_number_request = None.
Proof.
  exact (failing_upstream_answers_500 (fun _ => Ok None) 10 empty_state block_number_request
           0 0 5 (fun _ => Throw (AxiosFailure (mkAxiosError None (Some (mkClientRequest None)))))
           (fun n => ex_intro _ _ eq_refl) (lookup_empty _)).
Defined.

Lemma immutable_key_not_volatile_writer (req r : rpc_request) :
  getCacheKey r = getCacheKey req ->
  method req = "eth_chainId" \/ method req = "net_version" ->
  method r = "eth_blockNumber" \/ method r = "eth_call" -> False.
Proof.
  unfold getCacheKey. intros H Hm Hr.
  destruct Hm as [Em|Em]; destruct Hr as [Er|Er]; rewrite Em, Er in H;
    cbv [String.append] in H; congruence.
Qed.

(** Writing methods whose lookup uses a finite maximum age. *)
Lemma volatile_writer (CACHE_MAX_AGE : Z) (r : rpc_request) (ms : Z) :
  cacheMaxAgeMs CACHE_MAX_AGE (method r) = Finite ms ->
  shouldWriteToCache r = Ok true ->
  method r = "eth_blockNumber" \/ method r = "eth_call".
Proof.
  unfold cacheMaxAgeMs, shouldWriteToCache, includes. simpl.
  destruct (String.eqb_spec (method r) "eth_chainId") as [->|H1]; [discriminate|].
  destruct (String.eqb_spec (method r) "net_version") as [->|H2]; [discriminate|].
  destruct (String.eqb_spec (method r) "eth_getTransactionReceipt") as [_|H3]; [discriminate|].
  intros _. destruct (String.eqb_spec (method r) "eth_blockNumber") as [E|H4]; [auto|].
  destruct (String.eqb_spec (method r) "eth_call") as [E|H5]; [auto|]. discriminate.
Qed.

(** The key of [req] holds the present value [v], with the in-memory
    backing. *)
Definition holds_value (K : string) (v : json) (st : state) : Prop :=
  db (st_store st) = None
  /\ exists e, cache (st_store st) !! K = Some e /\ val e = Some v.

Lemma holds_value_step (JSON_parse : option string -> js_result (option json))
    (CACHE_MAX_AGE : Z) (req : rpc_request) (v : json) (st : state) (run : request_run)
    (Hm : method req = "eth_chainId" \/ method req = "net_version")
    (Hpr : is_present (Some v) = true) :
  holds_value (getCacheKey req) v st ->
  holds_value (getCacheKey req) v
    (fst (handle_request JSON_parse CACHE_MAX_AGE st (rr_req run) (rr_now run) (rr_random run)
            (rr_latency run) (rr_up run))).
Proof.
  intros [Hdb [e [He Hv]]].
  set (r := rr_req run).
  rewrite handle_request_normal. cbv zeta.
  set (t := match duplicate_delay _ _ _ _ with Some d => rr_now run + d | None => rr_now run end).
  pose proof (handler_lookup_parts JSON_parse CACHE_MAX_AGE st r t) as Hp.
  destruct (handler_lookup JSON_parse CACHE_MAX_AGE st r t) as [st2 res].
  destruct Hp as [Hs [_ [_ Hres]]].
  assert (Hdb2 : db (st_store st2) = None) by (rewrite Hs, get_keeps_db; exact Hdb).
  assert (He2 : exists e2, cache (st_store st2) !! getCacheKey req = Some e2 /\ val e2 = Some v).
  { pose proof (get_keeps_entries JSON_parse (st_store st) (getCacheKey r)
                  (cacheMaxAgeMs CACHE_MAX_AGE (method r)) (req_id r) t (getCacheKey req)) as Hk.
    rewrite <- Hs, He in Hk.
    destruct (cache (st_store st2) !! getCacheKey req) as [e2|]; [|discriminate].
    simpl in Hk. injection Hk as _ Hval _. exists e2. split; [reflexivity|]. congruence. }
  destruct res as [resp|]; [split; [exact Hdb2|exact He2]|].
  destruct Hres as [Hmiss _].
  unfold handler_upstream_done. destruct (rr_up run) as [rpcRes|err]; [|split; assumption].
  destruct (shouldWriteToCache r) as [[|]|x] eqn:Hw; cbn [js_bind];
    [|split; assumption|split; assumption].
  destruct (get_prop (data rpcRes) "result") as [result|x]; cbn [js_bind];
    [|split; assumption].
  simpl. unfold writeResponseToCache. rewrite Hdb2. split; [reflexivity|].
  destruct (decide (getCacheKey r = getCacheKey req)) as [Hk|Hk].
  - exfalso.
    rewrite Hk, (get_present _ _ _ _ _ _ e He), Hv, Hpr in Hmiss.
    destruct (fresh t (ts e) (cacheMaxAgeMs CACHE_MAX_AGE (method r))) eqn:Hf;
      [discriminate|].
    destruct (cacheMaxAgeMs CACHE_MAX_AGE (method r)) as [ms|] eqn:Hma; [|discriminate].
    exact (immutable_key_not_volatile_writer req r Hk Hm (volatile_writer _ r ms Hma Hw)).
  - simpl. rewrite lookup_insert_ne by congruence. exact He2.
Qed.

Lemma holds_value_hit (JSON_parse : option string -> js_result (option json))
    (CACHE_MAX_AGE : Z) (req : rpc_request) (v : json) (st : state) (run : request_run)
    (Hm : method req = "eth_chainId" \/ method req = "net_version")
    (Hpr : is_present (Some v) = true) :
  holds_value (getCacheKey req) v st ->
  getCacheKey (rr_req run) = getCacheKey req -> method (rr_req run) = method req ->
  snd (handle_request JSON_parse CACHE_MAX_AGE st (rr_req run) (rr_now run) (rr_random run)
         (rr_latency run) (rr_up run))
  = [SendCached (mkResponse "2.0" (req_id (rr_req run)) v)].
Proof.
  intros [_ [e [He Hv]]] Hk Hmr.
  rewrite handle_request_normal. cbv zeta.
  set (t := match duplicate_delay _ _ _ _ with Some d => rr_now run + d | None => rr_now run end).
  assert (Hl : snd (handler_lookup JSON_parse CACHE_MAX_AGE st (rr_req run) t)
               = Hit (mkResponse "2.0" (req_id (rr_req run)) v)).
  { eapply lookup_hit_of_entry.
    - rewrite Hk. exact He.
    - rewrite Hmr. destruct Hm as [E|E]; rewrite E; reflexivity.
    - exact Hv.
    - exact Hpr. }
  destruct (handler_lookup JSON_parse CACHE_MAX_AGE st (rr_req run) t) as [st3 r3].
  simpl in Hl. subst r3. reflexivity.
Qed.

(** With the in-memory backing, once the first request for an
    [eth_chainId] or [net_version] key has been forwarded and the upstream
    answered with a result that is neither [null] nor [undefined], the
    entry is never overwritten by any later request handled on its own (no
    other request in flight meanwhile): every later request with the same
    key and method is answered from the cache with that result and its own
    id, whenever it comes and whatever the upstream would answer. *)
Theorem immutable_result_served_forever
    (JSON_parse : option string -> js_result (option json)) (CACHE_MAX_AGE : Z)
    (st : state) (req : rpc_request) (now latency : Z) (random : Q)
    (rpcRes : axios_response) (v : json)
    (Hdb : db (st_store st) = None)
    (Hm : method req = "eth_chainId" \/ method req = "net_version")
    (Habs : cache (st_store st) !! getCacheKey req = None)
    (Hv : get_prop (data rpcRes) "result" = Ok (Some v)) (Hpr : is_present (Some v) = true) :
  let '(st1, rs1) := handle_request JSON_parse CACHE_MAX_AGE st req now random latency (Ok rpcRes) in
  rs1 = [SendUpstream (data rpcRes)]
  /\ forall runs,
       Forall2 (fun run out =>
                  getCacheKey (rr_req run) = getCacheKey req -> method (rr_req run) = method req ->
                  out = [SendCached (mkResponse "2.0" (req_id (rr_req run)) v)])
               runs (snd (run_requests JSON_parse CACHE_MAX_AGE st1 runs)).
Proof.
  assert (Hw : shouldWriteToCache req = Ok true)
    by (unfold shouldWriteToCache; destruct Hm as [E|E]; rewrite E; reflexivity).
  rewrite handle_request_normal. cbv zeta.
  set (t := match duplicate_delay _ _ _ _ with Some d => now + d | None => now end).
  pose proof (handler_lookup_parts JSON_parse CACHE_MAX_AGE st req t) as Hp.
  pose proof (lookup_miss_of_absent JSON_parse CACHE_MAX_AGE st req t Habs) as Hmiss.
  destruct (handler_lookup JSON_parse CACHE_MAX_AGE st req t) as [st2 r].
  simpl in Hmiss. subst r. destruct Hp as [Hs _].
  assert (Hdb2 : db (st_store st2) = None) by (rewrite Hs, get_keeps_db; exact Hdb).
  unfold handler_upstream_done. rewrite Hw. cbn [js_bind]. rewrite Hv. cbn [js_bind].
  split; [reflexivity|].
  set (st1 := mkState _ _ _ _ _).
  assert (Hinv : holds_value (getCacheKey req) v st1).
  { split; [unfold st1; simpl; unfold writeResponseToCache; rewrite Hdb2; reflexivity|].
    eexists. split; [unfold st1; simpl; apply writeResponseToCache_lookup_mem; exact Hdb2|].
    reflexivity. }
  clearbody st1. intros runs. revert st1 Hinv.
  induction runs as [|run runs IH]; intros st1 Hinv; simpl; [constructor|].
  pose proof (holds_value_step JSON_parse CACHE_MAX_AGE req v st1 run Hm Hpr Hinv) as Hnext.
  pose proof (holds_value_hit JSON_parse CACHE_MAX_AGE req v st1 run Hm Hpr Hinv) as Hhit.
  destruct (handle_request _ _ st1 _ _ _ _ _) as [st1' rs] eqn:E. simpl in Hnext, Hhit.
  specialize (IH st1' Hnext).
  destruct (run_requests JSON_parse CACHE_MAX_AGE st1' runs) as [st2' outs]. simpl in *.
  constructor; [exact Hhit | exact IH].
Qed.

Definition chain_id_runs : list request_run :=
  [mkRun block_number_request 50000 0 5 (upstream_ok (JString "0x10"));
   mkRun (mkRequest "eth_chainId" (Some (JArray [])) (JNumber 7)) 100000000 0 5
         (Throw (TypeError "down"))].

Lemma immutable_result_served_forever_witness :
  Forall2 (fun run out =>
             getCacheKey (rr_req run) = getCacheKey (mkRequest "eth_chainId" (Some (JArray [])) (JNumber 1)) ->
             method (rr_req run) = "eth_chainId" ->
             out = [SendCached (mkResponse "2.0" (req_id (rr_req run)) (JString "0x1"))])
          chain_id_runs
          (snd (run_requests (fun _ => Ok None) 10
                  (fst (handle_request (fun _ => Ok None) 10 empty_state
                          (mkRequest "eth_chainId" (Some (JArray [])) (JNumber 1)) 0 0 5
                          (upstream_ok (JString "0x1"))))
                  chain_id_runs)).
Proof.
  pose proof (immutable_result_served_forever (fun _ => Ok None) 10 empty_state
                (mkRequest "eth_chainId" (Some (JArray [])) (JNumber 1)) 0 5 0
                (mkAxiosResponse (JObject [("jsonrpc", JString "2.0"); ("id", JNumber 1);
                                           ("result", JString "0x1")]))
                (JString "0x1") eq_refl (or_introl eq_refl) (lookup_empty _) eq_refl eq_refl) as H.
  unfold upstream_ok at 1.
  destruct (handle_request _ _ empty_state _ _ _ _ _) as [st1 rs1]. exact (proj2 H chain_id_runs).
Defined.

(** An [eth_call] whose [params] are missing, are not an array, or start
    with [null] makes the cache-write test of lines 206-209 throw a
    [TypeError] after the upstream body has been sent. The catch block's
    [res.status(500).send(err)] then throws [ERR_HTTP_HEADERS_SENT]: the
    route handler rejects, no 500 is sent, [httpReqCnt] is not
    incremented (line 217 is skipped) and nothing is cached for the key. *)
Theorem eth_call_write_test_throws_after_send
    (JSON_parse : option string -> js_result (option json)) (CACHE_MAX_AGE : Z)
    (st : state) (req : rpc_request) (now latency : Z) (random : Q) (rpcRes : axios_response)
    (Hm : method req = "eth_call")
    (Hps : params req = None
           \/ (exists p, params req = Some p /\ forall xs, p <> JArray xs)
           \/ (exists ps, params req = Some (JArray (JNull :: ps))))
    (Habs : cache (st_store st) !! getCacheKey req = None) :
  let '(st', rs) := handle_request JSON_parse CACHE_MAX_AGE st req now random latency (Ok rpcRes) in
  rs = [SendUpstream (data rpcRes); Rejected headers_sent_error]
  /\ httpReqCnt st' = httpReqCnt st
  /\ httpUpstreamResCnt st' = httpUpstreamResCnt st + 1
  /\ cache (st_store st') !! getCacheKey req = None.
Proof.
  assert (Hw : exists msg, shouldWriteToCache req = Throw (TypeError msg)).
  { unfold shouldWriteToCache. rewrite Hm. simpl.
    destruct Hps as [E|[[p [E Hp]]|[ps E]]]; rewrite E.
    - eexists; reflexivity.
    - destruct p; try (eexists; reflexivity). exfalso. exact (Hp xs eq_refl).
    - simpl. eexists; reflexivity. }
  destruct Hw as [msg Hw].
  rewrite handle_request_normal. cbv zeta.
  set (t := match duplicate_delay _ _ _ _ with Some d => now + d | None => now end).
  pose proof (handler_lookup_parts JSON_parse CACHE_MAX_AGE st req t) as Hp.
  pose proof (lookup_miss_of_absent JSON_parse CACHE_MAX_AGE st req t Habs) as Hmiss.
  destruct (handler_lookup JSON_parse CACHE_MAX_AGE st req t) as [st2 r].
  simpl in Hmiss. subst r. destruct Hp as [Hs [_ [Hu [_ [Hr _]]]]].
  unfold handler_upstream_done. rewrite Hw. simpl.
  split; [reflexivity|]. split; [exact Hr|]. split; [lia|].
  rewrite Hs. apply get_keeps_absent. exact Habs.
Qed.

Lemma eth_call_write_test_throws_after_send_witness :
  let '(st', rs) := handle_request (fun _ => Ok None) 10 empty_state
                      (mkRequest "eth_call" None (JNumber 4)) 0 0 5 (upstream_ok (JString "0x")) in
  rs = [SendUpstream (data (mkAxiosResponse (JObject [("jsonrpc", JString "2.0");
          ("id", JNumber 1); ("result", JString "0x")]))); Rejected headers_sent_error]
  /\ httpReqCnt st' = httpReqCnt empty_state
  /\ httpUpstreamResCnt st' = httpUpstreamResCnt empty_state + 1
  /\ cache (st_store st') !! getCacheKey (mkRequest "eth_call" None (JNumber 4)) = None.
Proof.
  exact (eth_call_write_test_throws_after_send (fun _ => Ok None) 10 empty_state
           (mkRequest "eth_call" None (JNumber 4)) 0 5 0
           (mkAxiosResponse (JObject [("jsonrpc", JString "2.0"); ("id", JNumber 1);
                                      ("result", JString "0x")]))
           eq_refl (or_introl eq_refl) (lookup_empty _)).
Defined.

(** If the [k]-th attempt is the first that succeeds, [k <= nrRetries] and
    the earlier failures carry no HTTP response, [upstreamHttpRequest]
    returns that response after exactly [k] doubling sleeps, with [k + 1]
    posts and nothing after the last one. *)
Theorem upstream_success_after_failures
    (post : nat -> js_result axios_response) (calls k n : nat) (t : Z) (r : axios_response)
    (Hk : (k <= n)%nat)
    (Hfail : forall i, (i < k)%nat ->
               exists e, post (calls + i)%nat = Throw e /\ carries_response e = false)
    (Hok : post (calls + k)%nat = Ok r) :
  Upstream.upstreamHttpRequest post calls n t = (backoff_trace k t, Ok r).
Proof.
  revert calls n t Hk Hfail Hok. induction k as [|k IH]; intros calls n t Hk Hfail Hok.
  - destruct n; simpl; rewrite Nat.add_0_r in Hok; rewrite Hok; reflexivity.
  - destruct n as [|n]; [lia|]. simpl.
    destruct (Hfail 0%nat ltac:(lia)) as [e [He Hr]]. rewrite Nat.add_0_r in He.
    destruct (forwardedErr_no_response e Hr) as [v Hv]. rewrite He, Hv.
    rewrite (IH (S calls) n (t * 2)).
    + reflexivity.
    + lia.
    + intros i Hi. destruct (Hfail (S i) ltac:(lia)) as [e' He'].
      exists e'. replace (S calls + i)%nat with (calls + S i)%nat by lia. exact He'.
    + replace (S calls + k)%nat with (calls + S k)%nat by lia. exact Hok.
Qed.

Lemma upstream_success_after_failures_witness :
  Upstream.upstreamHttpRequest
    (fun n => if (n <? 2)%nat then Throw (AxiosFailure (mkAxiosError None (Some (mkClientRequest None))))
              else Ok (mkAxiosResponse (JObject [("result", JString "0x1")]))) 0 10 2000
  = (backoff_trace 2 2000, Ok (mkAxiosResponse (JObject [("result", JString "0x1")]))).
Proof.
  apply (upstream_success_after_failures _ 0 2 10 2000 _).
  - lia.
  - intros i Hi. simpl. destruct i as [|[|i]]; [eexists; split; reflexivity
                                              |eexists; split; reflexivity|lia].
  - reflexivity.
Defined.

(** At most [nrRetries + 1] posts are made, and the outcome of the call
    depends only on theirs: two upstreams that agree on these attempts give
    the same events and the same result. *)
Theorem upstream_at_most_retries_plus_one_posts
    (post post' : nat -> js_result axios_response) (calls n : nat) (t : Z)
    (Hagree : forall i, (i <= n)%nat -> post (calls + i)%nat = post' (calls + i)%nat) :
  Upstream.upstreamHttpRequest post calls n t = Upstream.upstreamHttpRequest post' calls n t
  /\ (Upstream.nr_posts (fst (Upstream.upstreamHttpRequest post calls n t)) <= S n)%nat.
Proof.
  revert calls t Hagree. induction n as [|n IH]; intros calls t Hagree.
  - pose proof (Hagree 0%nat ltac:(lia)) as H0. rewrite Nat.add_0_r in H0.
    simpl. rewrite <- H0.
    destruct (post calls) as [r|e]; [split; [reflexivity|cbn; lia]|].
    destruct (Upstream.forwardedErr e); (split; [reflexivity|cbn; lia]).
  - pose proof (Hagree 0%nat ltac:(lia)) as H0. rewrite Nat.add_0_r in H0.
    assert (Hs : forall i, (i <= n)%nat -> post (S calls + i)%nat = post' (S calls + i)%nat).
    { intros i Hi. replace (S calls + i)%nat with (calls + S i)%nat by lia.
      apply Hagree. lia. }
    destruct (IH (S calls) (t * 2) Hs) as [Heq Hle].
    simpl. rewrite <- H0, <- Heq.
    destruct (post calls) as [r|e]; [split; [reflexivity|cbn; lia]|].
    destruct (Upstream.forwardedErr e); [|split; [reflexivity|cbn; lia]].
    destruct (Upstream.upstreamHttpRequest post (S calls) n (t * 2)) as [tr res] eqn:E.
    split; [reflexivity|]. simpl in Hle. unfold Upstream.nr_posts in *. simpl. lia.
Qed.

Lemma upstream_at_most_retries_plus_one_posts_witness :
  Upstream.upstream_call
    (fun n => if (n <=? 10)%nat then Throw (AxiosFailure (mkAxiosError None None))
              else Ok (mkAxiosResponse (JObject [("result", JString "0x1")])))
  = Upstream.upstream_call (fun _ => Throw (AxiosFailure (mkAxiosError None None))).
Proof.
  apply (upstream_at_most_retries_plus_one_posts _ _ 0 10 2000).
  intros i Hi. simpl. apply Nat.leb_le in Hi. rewrite Hi. reflexivity.
Defined.

Lemma backoff_trace_total (n : nat) (t : Z) :
  fold_right Z.add 0 (Upstream.sleeps (backoff_trace n t)) = t * (2 ^ Z.of_nat n - 1).
Proof.
  revert t. induction n as [|n IH]; intros t; [simpl; lia|].
  unfold Upstream.sleeps in *. cbn [backoff_trace List.flat_map app fold_right].
  rewrite IH. rewrite Nat2Z.inj_succ, Z.pow_succ_r by lia. lia.
Qed.

(** When the first [nrRetries + 1] attempts all fail without an HTTP
    response, the sleeps of the call add up to
    [initialTimeoutMs * (2^nrRetries - 1)]; with the defaults, 2 046 000 ms
    pass between the first post and the throw, besides the time the posts
    themselves take. *)
Theorem upstream_total_backoff
    (post : nat -> js_result axios_response) (calls n : nat) (t : Z)
    (Hfail : forall i, (i <= n)%nat ->
               exists e, post (calls + i)%nat = Throw e /\ carries_response e = false) :
  fold_right Z.add 0 (Upstream.sleeps (fst (Upstream.upstreamHttpRequest post calls n t)))
  = t * (2 ^ Z.of_nat n - 1).
Proof.
  rewrite (upstream_no_response_failures post calls n t Hfail). apply backoff_trace_total.
Qed.

Lemma upstream_total_backoff_witness :
  fold_right Z.add 0 (Upstream.sleeps (fst (Upstream.upstream_call
                       (fun _ => Throw (AxiosFailure (mkAxiosError None (Some (mkClientRequest None))))))))
  = 2046000.
Proof.
  unfold Upstream.upstream_call.
  rewrite (upstream_total_backoff
             (fun _ => Throw (AxiosFailure (mkAxiosError None (Some (mkClientRequest None)))))
             0 10 2000 (fun i _ => ex_intro _ _ (conj eq_refl eq_refl))).
  reflexivity.
Defined.


(** After a request has passed line 186 at time [t], a request with the
    same key arriving at [t'] is put to sleep exactly when [t' - t < 1000]. *)
Theorem duplicate_window_after_request
    (JSON_parse : option string -> js_result (option json)) (CACHE_MAX_AGE : Z)
    (st : state) (req req' : rpc_request) (t t' : Z) (random : Q)
    (Hk : getCacheKey req' = getCacheKey req) :
  (exists d, snd (handler_start JSON_parse CACHE_MAX_AGE
                    (fst (handler_lookup JSON_parse CACHE_MAX_AGE st req t)) req' t' random)
             = Sleeping d)
  <-> t' - t < DUPLICATE_DELAY_TRIGGER_THRESHOLD_MS.
Proof.
  pose proof (handler_lookup_parts JSON_parse CACHE_MAX_AGE st req t) as Hp.
  destruct (handler_lookup JSON_parse CACHE_MAX_AGE st req t) as [st1 r]. simpl fst.
  destruct Hp as [_ [Hd _]].
  unfold handler_start, duplicate_delay. rewrite Hd, Hk, lookup_insert_eq.
  destruct (t' - t <? DUPLICATE_DELAY_TRIGGER_THRESHOLD_MS) eqn:E.
  - apply Z.ltb_lt in E. simpl. split; [intros _; exact E | intros _; eexists; reflexivity].
  - apply Z.ltb_ge in E.
    destruct (handler_lookup JSON_parse CACHE_MAX_AGE st1 req' t') as [st3 r3]. simpl.
    split; [intros [d Hd']; discriminate | intros; lia].
Qed.

Lemma duplicate_window_after_request_witness :
  exists d, snd (handler_start (fun _ => Ok None) 10
                   (fst (handler_lookup (fun _ => Ok None) 10 empty_state block_number_request 0))
                   block_number_request 999 0) = Sleeping d.
Proof.
  apply (proj2 (duplicate_window_after_request (fun _ => Ok None) 10 empty_state
                  block_number_request block_number_request 0 999 0 eq_refl)).
  unfold DUPLICATE_DELAY_TRIGGER_THRESHOLD_MS. lia.
Defined.

(** With the in-memory backing, a read after a write of [v] at [now0]
    gets the written value in the envelope exactly when the entry is still
    fresh and [v] is neither [null] nor [undefined]; otherwise [undefined]. *)
Theorem memory_write_then_read
    (JSON_parse : option string -> js_result (option json)) (st : store) (key : string)
    (v : option json) (now0 now : Z) (ma : max_age) (reqId : json)
    (Hdb : db st = None) :
  fst (getResponseFromCache JSON_parse (writeResponseToCache st key v now0) key ma reqId now)
  = if fresh now now0 ma
    then match v with
         | Some j => if is_present (Some j) then Some (mkResponse "2.0" reqId j) else None
         | None => None
         end
    else None.
Proof.
  unfold getResponseFromCache.
  rewrite (writeResponseToCache_lookup_mem st key v now0 Hdb). cbn [ts val].
  destruct (fresh now now0 ma); [|reflexivity].
  destruct v as [j|]; [|reflexivity]. cbn [fst].
  destruct (is_present (Some j)); reflexivity.
Qed.

Lemma memory_write_then_read_witness :
  fst (getResponseFromCache (fun _ => Ok None)
         (writeResponseToCache (mkStore ∅ None) "eth_blockNumber[]" (Some (JString "0x10")) 0)
         "eth_blockNumber[]" (Finite 10000) (JNumber 3) 10000)
  = Some (mkResponse "2.0" (JNumber 3) (JString "0x10")).
Proof.
  rewrite (memory_write_then_read (fun _ => Ok None) (mkStore ∅ None) "eth_blockNumber[]"
             (Some (JString "0x10")) 0 10000 (Finite 10000) (JNumber 3) eq_refl).
  reflexivity.
Defined.

(** In app.js a transaction receipt is written to the cache and served
    within [CACHE_MAX_AGE] seconds, also when it is [null] (a pending
    transaction): a client then keeps getting [result: null] from the cache. *)
Theorem appjs_null_receipt_served (CACHE_MAX_AGE : Z) (cache : gmap string entry)
    (key : string) (reqId : json) (now0 now : Z)
    (Hage : now - now0 <= CACHE_MAX_AGE * 1000) :
  AppJs.shouldWriteToCache "eth_getTransactionReceipt" = true
  /\ fst (AppJs.getResponseFromCache (AppJs.writeResponseToCache cache key (Some JNull) now0)
          key (AppJs.cacheMaxAgeMs CACHE_MAX_AGE "eth_getTransactionReceipt") reqId now)
     = Some (AppJs.mkResponse "2.0" reqId (Some JNull)).
Proof.
  split; [reflexivity|].
  unfold AppJs.getResponseFromCache, AppJs.writeResponseToCache.
  rewrite lookup_insert_eq. cbn [ts val].
  unfold AppJs.cacheMaxAgeMs. cbv [includes]. simpl.
  replace (now - now0 <=? CACHE_MAX_AGE * 1000) with true by (symmetry; apply Z.leb_le; exact Hage).
  reflexivity.
Qed.

Lemma appjs_null_receipt_served_witness :
  fst (AppJs.getResponseFromCache
         (AppJs.writeResponseToCache ∅ "eth_getTransactionReceipt[0xab]" (Some JNull) 0)
         "eth_getTransactionReceipt[0xab]"
         (AppJs.cacheMaxAgeMs 10 "eth_getTransactionReceipt") (JNumber 2) 5000)
  = Some (AppJs.mkResponse "2.0" (JNumber 2) (Some JNull)).
Proof.
  exact (proj2 (appjs_null_receipt_served 10 ∅ "eth_getTransactionReceipt[0xab]" (JNumber 2)
                  0 5000 ltac:(lia))).
Defined.

Lemma relay_inv_step (r : WsRelay.relay) (ev : WsRelay.ws_event) :
  relay_inv r -> relay_inv (WsRelay.step r ev).
Proof.
  intros [Hl Hd]. destruct ev as [|c data|msg]; simpl.
  - split; simpl.
    + rewrite Hl. change (0%nat :: seq 1 (WsRelay.connCnt r)) with (seq 0 (S (WsRelay.connCnt r))).
      rewrite seq_S. reflexivity.
    + eapply Forall_impl; [exact Hd|]. intros p Hp. simpl in *. lia.
  - destruct (c <? WsRelay.connCnt r)%nat; split; assumption.
  - split; simpl; [exact Hl|]. apply Forall_app; split; [exact Hd|].
    rewrite Hl. apply Forall_forall. intros p Hp. apply list_elem_of_In, in_map_iff in Hp.
    destruct Hp as [c [<- Hc]]. apply in_seq in Hc. simpl. lia.
Qed.

Lemma relay_inv_run (r : WsRelay.relay) (evs : list WsRelay.ws_event) :
  relay_inv r -> relay_inv (WsRelay.run r evs).
Proof.
  revert r. induction evs as [|ev evs IH]; intros r H; [exact H|].
  simpl. apply IH, relay_inv_step, H.
Qed.

Lemma relay_inv_initial : relay_inv WsRelay.initial.
Proof. split; [reflexivity|constructor]. Qed.

Lemma run_app (r : WsRelay.relay) (evs evs' : list WsRelay.ws_event) :
  WsRelay.run r (evs ++ evs') = WsRelay.run (WsRelay.run r evs) evs'.
Proof. revert r. induction evs as [|ev evs IH]; intros r; [reflexivity|]. apply IH. Qed.

Lemma relay_sources (evs : list WsRelay.ws_event) (r0 : WsRelay.relay) :
  (forall c m, In (c, m) (WsRelay.delivered (WsRelay.run r0 evs)) ->
     In (c, m) (WsRelay.delivered r0) \/ In (WsRelay.UpstreamMessage m) evs)
  /\ (forall s, In s (WsRelay.upstream_sent (WsRelay.run r0 evs)) ->
     In s (WsRelay.upstream_sent r0) \/ exists c, In (WsRelay.ClientMessage c s) evs).
Proof.
  revert r0. induction evs as [|ev evs IH]; intros r0; simpl.
  - split; intros; left; assumption.
  - destruct (IH (WsRelay.step r0 ev)) as [IHd IHs]. split.
    + intros c m Hin. destruct (IHd c m Hin) as [H|H]; [|right; right; exact H].
      destruct ev as [|c' data|msg]; simpl in H.
      * left; exact H.
      * destruct (c' <? WsRelay.connCnt r0)%nat; left; exact H.
      * apply in_app_or in H. destruct H as [H|H]; [left; exact H|].
        apply in_map_iff in H. destruct H as [c2 [E _]]. injection E as _ <-.
        right; left; reflexivity.
    + intros s Hin. destruct (IHs s Hin) as [H|[c H]]; [|right; exists c; right; exact H].
      destruct ev as [|c' data|msg]; simpl in H.
      * left; exact H.
      * destruct (c' <? WsRelay.connCnt r0)%nat; simpl in H; [|left; exact H].
        apply in_app_or in H. destruct H as [H|[<-|[]]]; [left; exact H|].
        right; exists c'; left; reflexivity.
      * left; exact H.
Qed.

(** Every upstream message is relayed to all connections established so
    far, [0 .. connCnt - 1] in connection order, and to nothing else:
    listeners are never removed, so closed connections are still sent to. *)
Theorem ws_upstream_broadcast (evs : list WsRelay.ws_event) (msg : string) :
  let r := WsRelay.run WsRelay.initial evs in
  WsRelay.delivered (WsRelay.run WsRelay.initial (evs ++ [WsRelay.UpstreamMessage msg]))
  = WsRelay.delivered r ++ map (fun c => (c, msg)) (seq 0 (WsRelay.connCnt r)).
Proof.
  cbv zeta. rewrite run_app. simpl.
  destruct (relay_inv_run WsRelay.initial evs relay_inv_initial) as [Hl _].
  rewrite Hl. reflexivity.
Qed.

(** Along any run from the start, only connections that exist are sent
    to, each id is handed out once, and the relay never makes up
    traffic: what goes upstream came from some client message and what
    goes to a client came from some upstream message. *)
Theorem ws_relay_no_spurious_traffic (evs : list WsRelay.ws_event) :
  let r := WsRelay.run WsRelay.initial evs in
  WsRelay.listeners r = seq 0 (WsRelay.connCnt r)
  /\ (forall c m, In (c, m) (WsRelay.delivered r) ->
        (c < WsRelay.connCnt r)%nat /\ In (WsRelay.UpstreamMessage m) evs)
  /\ (forall s, In s (WsRelay.upstream_sent r) -> exists c, In (WsRelay.ClientMessage c s) evs).
Proof.
  cbv zeta.
  destruct (relay_inv_run WsRelay.initial evs relay_inv_initial) as [Hl Hd].
  split; [exact Hl|].
  destruct (relay_sources evs WsRelay.initial) as [Hsd Hss]. split.
  - intros c m Hin. split.
    + rewrite Forall_forall in Hd. exact (Hd (c, m) (proj2 (list_elem_of_In _ _) Hin)).
    + destruct (Hsd c m Hin) as [[]|H]; exact H.
  - intros s Hin. destruct (Hss s Hin) as [[]|H]; exact H.
Qed.

